(** * Agentic travel planner: the chat component and its two search routes

    A shallow embedding of the chat page (persona memory, intent
    extraction, persona ranking, hotel policy, turn handlers) and of the
    flight and hotel API routes, with the properties of the specification
    stated and proved over it.

    Layout: JavaScript strings and the regular-expression matcher, the data
    model, [Array.prototype.sort], the API routes, the React state and the
    handlers of the component, [loadMemory]; then the theorems. *)

From Stdlib Require Import ZArith NArith QArith List Bool Lia Lqa Permutation Sorted.
From Stdlib Require Import Strings.String Strings.Ascii DecimalString.
From stdpp Require Import base option list gmap.

(** ** JavaScript strings

    A JavaScript string is a sequence of UTF-16 code units. *)

Definition jsstring := list N.

Definition str (s : string) : jsstring :=
  List.map N_of_ascii (list_ascii_of_string s).

Module Char.
Open Scope N_scope.

(** WhiteSpace and LineTerminator code units: the class [\s] of a regular
    expression, and what [String.prototype.trim] strips. *)
Definition is_space (c : N) : bool :=
  ((9 <=? c) && (c <=? 13)) || (c =? 32) || (c =? 160) || (c =? 5760)
  || ((8192 <=? c) && (c <=? 8202)) || (c =? 8232) || (c =? 8233)
  || (c =? 8239) || (c =? 8287) || (c =? 12288) || (c =? 65279).

Definition is_upper (c : N) : bool := (65 <=? c) && (c <=? 90).
Definition is_lower (c : N) : bool := (97 <=? c) && (c <=? 122).

(** [[A-Za-z]]; under the [i] flag the class is the same set, since a
    code unit above 127 is never folded onto an ASCII letter. *)
Definition is_alpha (c : N) : bool := is_upper c || is_lower c.

(** [\d] *)
Definition is_digit (c : N) : bool := (48 <=? c) && (c <=? 57).

(** The word characters that [\b] looks at: [[A-Za-z0-9_]]. *)
Definition is_word (c : N) : bool := is_alpha c || is_digit c || (c =? 95).

Definition upper (c : N) : N := if is_lower c then c - 32 else c.
Definition lower (c : N) : N := if is_upper c then c + 32 else c.

(** A pattern character: exact, and under the [i] flag. *)
Definition eq (a c : N) : bool := c =? a.
Definition eq_i (a c : N) : bool := upper c =? upper a.
End Char.

(** [toUpperCase] and [toLowerCase] as the component uses them. It
    upper-cases only what [[A-Za-z]{3}] captured, and lower-cases a fare
    class only to compare it with ["first"], ["business"] and ["economy"]:
    no code unit outside ASCII lower-cases to a letter of these three words.
    On these uses the map of the ASCII letters below agrees with JavaScript
    for every string. The routes upper-case arbitrary text; they take
    [String.prototype.toUpperCase] as a parameter instead (see [Api]). *)
Definition toUpperCase (s : jsstring) : jsstring := List.map Char.upper s.
Definition toLowerCase (s : jsstring) : jsstring := List.map Char.lower s.

Fixpoint dropWhile (p : N -> bool) (s : jsstring) : jsstring :=
  match s with
  | c :: s' => if p c then dropWhile p s' else s
  | [] => []
  end.

Definition trim (s : jsstring) : jsstring :=
  rev (dropWhile Char.is_space (rev (dropWhile Char.is_space s))).

Definition jsstring_eqb (a b : jsstring) : bool := bool_decide (a = b).

(** JavaScript truthiness of a [string | undefined], and the operators
    [a || b] and [a ?? b] at that type. *)
Definition truthy (o : option jsstring) : bool :=
  match o with
  | Some (_ :: _) => true
  | _ => false
  end.

Definition or_else (a b : option jsstring) : option jsstring :=
  if truthy a then a else b.

Definition nullish {A} (a b : option A) : option A :=
  match a with
  | Some x => Some x
  | None => b
  end.

(** ** Regular expressions

    The fragment the component uses: single code units, sequence,
    alternation, greedy star, one capture group and [\b], matched by
    backtracking, leftmost start first, as [RegExp.prototype.exec] does. *)

Module Regex.

Inductive regex :=
| Chr (p : N -> bool)
| Cat (r1 r2 : regex)
| Alt (r1 r2 : regex)
| Star (r : regex)
| Group (r : regex)
| WordB
| Eps.

Definition Plus (r : regex) : regex := Cat r (Star r).

Fixpoint Rep (n : nat) (r : regex) : regex :=
  match n with
  | O => Eps
  | S n' => Cat r (Rep n' r)
  end.

(** A literal word, each character compared by [eqc]. *)
Fixpoint word (eqc : N -> N -> bool) (w : jsstring) : regex :=
  match w with
  | [] => Eps
  | c :: w' => Cat (Chr (eqc c)) (word eqc w')
  end.

(** A position in the subject is the text before it, most recent code
    unit first, and the text after it. A continuation receives the
    position reached and the capture of group 1. *)
Definition cont := list N -> list N -> option jsstring -> option (option jsstring).
Definition matcher := list N -> list N -> option jsstring -> cont -> option (option jsstring).

(** Greedy iteration; an iteration that consumes nothing is rejected.
    Every iteration shortens the rest, so [length a] rounds of fuel are
    never used up. *)
Fixpoint star_loop (body : matcher) (fuel : nat) (b a : list N)
    (cap : option jsstring) (k : cont) : option (option jsstring) :=
  match fuel with
  | O => k b a cap
  | S fuel' =>
      match body b a cap (fun b' a' cap' =>
              if (length a' <? length a)%nat
              then star_loop body fuel' b' a' cap' k
              else None) with
      | Some x => Some x
      | None => k b a cap
      end
  end.

Definition word_at (o : option N) : bool :=
  match o with
  | Some c => Char.is_word c
  | None => false
  end.

Fixpoint run (r : regex) : matcher :=
  fun b a cap k =>
  match r with
  | Chr p =>
      match a with
      | c :: a' => if p c then k (c :: b) a' cap else None
      | [] => None
      end
  | Cat r1 r2 => run r1 b a cap (fun b' a' cap' => run r2 b' a' cap' k)
  | Alt r1 r2 =>
      match run r1 b a cap k with
      | Some x => Some x
      | None => run r2 b a cap k
      end
  | Star r1 => star_loop (run r1) (length a) b a cap k
  | Group r1 =>
      run r1 b a cap (fun b' a' _ =>
        k b' a' (Some (rev (take (length b' - length b) b'))))
  | WordB =>
      if xorb (word_at (head b)) (word_at (head a)) then k b a cap else None
  | Eps => k b a cap
  end.

(** A match attempt at one position: group 1 of the match, if any. *)
Definition match_here (r : regex) (b a : list N) : option (option jsstring) :=
  run r b a None (fun _ _ cap => Some cap).

Fixpoint exec_from (r : regex) (b a : list N) : option (option jsstring) :=
  match match_here r b a with
  | Some cap => Some cap
  | None =>
      match a with
      | [] => None
      | c :: a' => exec_from r (c :: b) a'
      end
  end.

(** [s.match(r)?.[1]] *)
Definition match1 (r : regex) (s : jsstring) : option jsstring :=
  match exec_from r [] s with
  | Some cap => cap
  | None => None
  end.

(** [r.test(s)] *)
Definition test (r : regex) (s : jsstring) : bool :=
  match exec_from r [] s with
  | Some _ => true
  | None => false
  end.

End Regex.

Import Regex.

(** The patterns of [handleSubmit]. *)

(** [/from\s+([A-Za-z]{3})/i] *)
Definition from_re : regex :=
  Cat (word Char.eq_i (str "from"))
      (Cat (Plus (Chr Char.is_space)) (Group (Rep 3 (Chr Char.is_alpha)))).

(** [/\b([A-Za-z]{3})\s*->/i] *)
Definition from_arrow_re : regex :=
  Cat WordB
      (Cat (Group (Rep 3 (Chr Char.is_alpha)))
           (Cat (Star (Chr Char.is_space)) (word Char.eq_i (str "->")))).

(** [/to\s+([A-Za-z]{3})/i] *)
Definition to_re : regex :=
  Cat (word Char.eq_i (str "to"))
      (Cat (Plus (Chr Char.is_space)) (Group (Rep 3 (Chr Char.is_alpha)))).

(** [/->\s*([A-Za-z]{3})/i] *)
Definition to_arrow_re : regex :=
  Cat (word Char.eq_i (str "->"))
      (Cat (Star (Chr Char.is_space)) (Group (Rep 3 (Chr Char.is_alpha)))).

(** [/(\d{4}-\d{2}-\d{2})/] *)
Definition date_re : regex :=
  Group (Cat (Rep 4 (Chr Char.is_digit))
        (Cat (Chr (Char.eq 45))
        (Cat (Rep 2 (Chr Char.is_digit))
        (Cat (Chr (Char.eq 45))
             (Rep 2 (Chr Char.is_digit)))))).

(** [/hotel|stay|night|overnight/i] *)
Definition hotel_re : regex :=
  Alt (word Char.eq_i (str "hotel"))
      (Alt (word Char.eq_i (str "stay"))
           (Alt (word Char.eq_i (str "night"))
                (word Char.eq_i (str "overnight")))).

(** ** Data model *)

Inductive Persona := Rich | Business.

Inductive Role := user | agent.

Record Message := { role : Role; text : jsstring; ts : N }.

(** Prices are JSON numbers. The component only reads the sign of a
    difference of two prices, which for finite numbers is the sign of the
    exact difference, so a price is modelled as a rational. Star ratings
    are integers. *)
Module Flight.
Record t := {
  id : jsstring; from : jsstring; to : jsstring; date : jsstring;
  depart : jsstring; arrive : jsstring; airline : jsstring;
  class : jsstring; price : Q; overnight : bool
}.
End Flight.

Module Hotel.
Record t := {
  id : jsstring; city : jsstring; name : jsstring; stars : Z; price : Q
}.
End Hotel.

(** [{ from?: string; to?: string; date?: string }] *)
Module Query.
Record t := {
  from : option jsstring; to : option jsstring; date : option jsstring
}.
Definition empty : t := {| from := None; to := None; date := None |}.
End Query.

Record Memory := {
  persona : Persona;
  lastQuery : option Query.t;
  chosenFlightId : option jsstring;
  hotelRequired : option bool
}.

(** ** [Array.prototype.sort]

    The comparator returns a number and only its sign is read: the sort puts
    [b] before [a] when [cmp a b > 0] and is stable. With a consistent
    comparator the result does not depend on the algorithm; it is written
    here as an insertion sort that keeps an element in front of whatever
    followed it unless the comparator says otherwise. *)

Section Sort.
Context {A : Type} (cmp : A -> A -> Q).

Fixpoint insert_sorted (x : A) (l : list A) : list A :=
  match l with
  | [] => [x]
  | y :: l' =>
      if Qle_bool (cmp x y) 0 then x :: y :: l' else y :: insert_sorted x l'
  end.

Fixpoint sort (l : list A) : list A :=
  match l with
  | [] => []
  | x :: l' => insert_sorted x (sort l')
  end.
End Sort.

(** [x || y] on numbers: [y] when [x] is zero. *)
Definition num_or (x y : Q) : Q := if Qeq_bool x 0 then y else x.

(** ** Ranking (the closures of the component over [memory.persona]) *)

Definition class_is (f : Flight.t) (c : string) : bool :=
  jsstring_eqb (toLowerCase (Flight.class f)) (str c).

Definition personaScore (p : Persona) (f : Flight.t) : Z :=
  match p with
  | Rich =>
      (if class_is f "first" then 3 else 0)
      + (if class_is f "business" then 2 else 0)
      + (if Flight.overnight f then -1 else 0)
  | Business =>
      (if class_is f "business" then 3 else 0)
      + (if class_is f "economy" then 1 else 0)
      + (if negb (Flight.overnight f) then 1 else 0)
  end%Z.

(** [(a, b) => personaScore(b) - personaScore(a) || a.price - b.price] *)
Definition cmpFlights (p : Persona) (a b : Flight.t) : Q :=
  num_or (inject_Z (personaScore p b - personaScore p a))
         (Flight.price a - Flight.price b).

(** [(a, b) => b.stars - a.stars || a.price - b.price] *)
Definition cmpHotels (a b : Hotel.t) : Q :=
  num_or (inject_Z (Hotel.stars b - Hotel.stars a))
         (Hotel.price a - Hotel.price b).

Definition minStars (p : Persona) : Z :=
  match p with
  | Rich => 5
  | Business => 4
  end.

(** ** The API routes *)

(** [upperCase] is [String.prototype.toUpperCase], on arbitrary text: the
    full case mapping of the host, taken as a parameter. *)
Module Api.
(** [GET /api/flights]: the three optional query parameters. *)
Definition flights (upperCase : jsstring -> jsstring) (data : list Flight.t)
    (q : Query.t) : list Flight.t :=
  let from := upperCase <$> Query.from q in
  let to := upperCase <$> Query.to q in
  let date := Query.date q in
  let results := data in
  let results :=
    if truthy from
    then List.filter (fun f => jsstring_eqb (Flight.from f) (default [] from)) results
    else results in
  let results :=
    if truthy to
    then List.filter (fun f => jsstring_eqb (Flight.to f) (default [] to)) results
    else results in
  let results :=
    if truthy date
    then List.filter (fun f => jsstring_eqb (Flight.date f) (default [] date)) results
    else results in
  results.

(** [GET /api/hotels]: [city] is the decoded parameter, [minStars] the
    number the parameter denotes; an absent [minStars] counts as 0. *)
Definition hotels (upperCase : jsstring -> jsstring) (data : list Hotel.t)
    (city : option jsstring) (minStars : option Z) : list Hotel.t :=
  let city := upperCase <$> city in
  let minStars := default 0%Z minStars in
  let results := data in
  let results :=
    if truthy city
    then List.filter
           (fun h => jsstring_eqb (upperCase (Hotel.city h)) (default [] city))
           results
    else results in
  let results :=
    if negb (minStars =? 0)%Z
    then List.filter (fun h => (minStars <=? Hotel.stars h)%Z) results
    else results in
  results.
End Api.

(** ** The chat component

    The React state of [Chat] is a record that every handler receives and
    returns. One more field makes the effects of a handler visible: the
    requests sent to the API routes, oldest first. *)

Inductive Request :=
| GetFlights (q : Query.t)
| GetHotels (city : jsstring) (minStars : Z).

Record State := {
  memory : Memory;
  messages : list Message;
  input : jsstring;
  flights : list Flight.t;
  hotels : list Hotel.t;
  requests : list Request
}.

Definition setMemory (f : Memory -> Memory) (s : State) : State :=
  {| memory := f (memory s); messages := messages s; input := input s;
     flights := flights s; hotels := hotels s;
     requests := requests s |}.

Definition setInput (v : jsstring) (s : State) : State :=
  {| memory := memory s; messages := messages s; input := v;
     flights := flights s; hotels := hotels s;
     requests := requests s |}.

Definition setFlights (l : list Flight.t) (s : State) : State :=
  {| memory := memory s; messages := messages s; input := input s;
     flights := l; hotels := hotels s;
     requests := requests s |}.

Definition setHotels (l : list Hotel.t) (s : State) : State :=
  {| memory := memory s; messages := messages s; input := input s;
     flights := flights s; hotels := l;
     requests := requests s |}.

Definition fetch (r : Request) (s : State) : State :=
  {| memory := memory s; messages := messages s; input := input s;
     flights := flights s; hotels := hotels s;
     requests := requests s ++ [r] |}.

(** [{ ...m, hotelRequired: true }] and the other object spreads. *)
Definition with_hotelRequired (v : bool) (m : Memory) : Memory :=
  {| persona := persona m; lastQuery := lastQuery m;
     chosenFlightId := chosenFlightId m; hotelRequired := Some v |}.

Definition with_persona (p : Persona) (m : Memory) : Memory :=
  {| persona := p; lastQuery := lastQuery m;
     chosenFlightId := chosenFlightId m; hotelRequired := hotelRequired m |}.

Definition with_lastQuery (q : Query.t) (m : Memory) : Memory :=
  {| persona := persona m; lastQuery := Some q;
     chosenFlightId := chosenFlightId m; hotelRequired := hotelRequired m |}.

Definition with_chosenFlightId (i : jsstring) (m : Memory) : Memory :=
  {| persona := persona m; lastQuery := lastQuery m;
     chosenFlightId := Some i; hotelRequired := hotelRequired m |}.

(** What [handleSubmit] reads off the utterance. *)
Definition extract_from (q : jsstring) : option jsstring :=
  toUpperCase <$> or_else (match1 from_re q) (match1 from_arrow_re q).

Definition extract_to (q : jsstring) : option jsstring :=
  toUpperCase <$> or_else (match1 to_re q) (match1 to_arrow_re q).

Definition extract_date (q : jsstring) : option jsstring :=
  match1 date_re q.

Definition extract (q : jsstring) : Query.t :=
  {| Query.from := extract_from q; Query.to := extract_to q;
     Query.date := extract_date q |}.

Definition mentionsHotel (q : jsstring) : bool := test hotel_re q.

(** [{ from: from ?? memory.lastQuery?.from, to: ..., date: ... }] *)
Definition mergeQuery (m : Memory) (q : Query.t) : Query.t :=
  {| Query.from := nullish (Query.from q) (lastQuery m ≫= Query.from);
     Query.to := nullish (Query.to q) (lastQuery m ≫= Query.to);
     Query.date := nullish (Query.date q) (lastQuery m ≫= Query.date) |}.

(** [Object.entries(params).filter(([,v]) => !!v)]: the parameters that
    reach the query string. *)
Definition sent (o : option jsstring) : option jsstring :=
  if truthy o then o else None.

Definition queryString (params : Query.t) : Query.t :=
  {| Query.from := sent (Query.from params); Query.to := sent (Query.to params);
     Query.date := sent (Query.date params) |}.

Definition personaName (p : Persona) : jsstring :=
  match p with
  | Rich => str "Rich"
  | Business => str "Business"
  end.

Section Chat.
(** What the component takes from its surroundings: the upper-casing of
    the routes, their two data files, the timestamps and the currency
    formatter. [now i] is the timestamp that the message at position [i] of
    the transcript receives: a reading of [Date.now()] taken while React
    runs the updater that appends it. React may run an updater more than
    once; nothing is assumed about how many readings are taken or how they
    relate from one message to the next. *)
Variable upperCase : jsstring -> jsstring.
Variable flightsData : list Flight.t.
Variable hotelsData : list Hotel.t.
Variable now : nat -> N.
Variable formatCurrency : Q -> jsstring.

Definition addMessage (r : Role) (t : jsstring) (s : State) : State :=
  {| memory := memory s;
     messages :=
       messages s ++ [{| role := r; text := t; ts := now (length (messages s)) |}];
     input := input s; flights := flights s; hotels := hotels s;
     requests := requests s |}.

Definition addAgent := addMessage agent.
Definition addUser := addMessage user.

(** [rank]: the sort of [searchFlights]. *)
Definition rankFlights (p : Persona) (l : list Flight.t) : list Flight.t :=
  sort (cmpFlights p) l.

Definition rankHotels (l : list Hotel.t) : list Hotel.t :=
  sort cmpHotels l.

(** [searchFlights] and [searchHotels] close over the [memory] of the
    render that created them: [p] is that render's persona. *)
Definition searchFlights (p : Persona) (params : Query.t) (s : State) : State :=
  let qs := queryString params in
  let s := fetch (GetFlights qs) s in
  let list := Api.flights upperCase flightsData qs in
  setFlights (rankFlights p list) s.

Definition searchHotels (p : Persona) (city : jsstring) (s : State) : State :=
  let minStars := match p with Rich => 5 | Business => 4 end%Z in
  let s := fetch (GetHotels city minStars) s in
  let list := Api.hotels upperCase hotelsData (Some city) (Some minStars) in
  setHotels (rankHotels list) s.

Definition foundFlights : jsstring :=
  str "I found flight options ranked by your persona.".

Definition hotelRequiredIn (city : jsstring) : jsstring :=
  str "Hotel is required in " ++ city ++ str ". Suggested options listed.".

(** The sub-expressions of [handleSubmit]. [q] is the trimmed utterance;
    [mem] and [held] are the [memory] and the [flights] that the handler
    closes over. *)

(** [{ ...memory, lastQuery: { from: from ?? memory.lastQuery?.from, ... } }] *)
Definition newMemory (mem : Memory) (q : jsstring) : Memory :=
  with_lastQuery (mergeQuery mem (extract q)) mem.

(** [from || to || date || flights.length === 0] *)
Definition searchesFlights (q : jsstring) (held : list Flight.t) : bool :=
  truthy (extract_from q) || truthy (extract_to q) || truthy (extract_date q)
  || (length held =? 0)%nat.

(** [/hotel|stay|night|overnight/i.test(q) || (flights[0]?.overnight ?? false)] *)
Definition needsHotel (q : jsstring) (held : list Flight.t) : bool :=
  mentionsHotel q || default false (Flight.overnight <$> head held).

(** [(newMem.lastQuery?.to ?? flights[0]?.to) || ''] *)
Definition arrivalCity (newMem : Memory) (held : list Flight.t) : jsstring :=
  match nullish (lastQuery newMem ≫= Query.to) (Flight.to <$> head held) with
  | Some (c :: city) => c :: city
  | _ => []
  end.

(** [handleSubmit]. The handler closes over the state [st] of the render
    that created it: [memory], [flights] and [input] are read from [st]
    throughout, also after the awaited searches, while the setters act on
    the running state. *)
Definition handleSubmit (st : State) : State :=
  let q := trim (input st) in
  match q with
  | [] => st
  | _ :: _ =>
      let s := setInput [] st in
      let s := addUser q s in
      let newMem := newMemory (memory st) q in
      let s := setMemory (fun _ => newMem) s in
      let s :=
        if searchesFlights q (flights st)
        then
          let s := searchFlights (persona (memory st))
                     (default Query.empty (lastQuery newMem)) s in
          addAgent foundFlights s
        else s in
      if needsHotel q (flights st) then
        match arrivalCity newMem (flights st) with
        | [] => s
        | (_ :: _) as city =>
            let s := setMemory (with_hotelRequired true) s in
            let s := searchHotels (persona (memory st)) city s in
            addAgent (hotelRequiredIn city) s
        end
      else s
  end.

Definition choosePersona (p : Persona) (st : State) : State :=
  let s := setMemory (with_persona p) st in
  addAgent
    (str "Persona set to " ++ personaName p ++ str ". "
     ++ match p with
        | Rich => str "I will prefer First Class flights and 5? hotels."
        | Business => str "I will prefer Business Class flights and 4?+ hotels."
        end) s.

Definition selectFlight (id : jsstring) (st : State) : State :=
  match List.find (fun x => jsstring_eqb (Flight.id x) id) (flights st) with
  | None => st
  | Some f =>
      let s :=
        setMemory
          (fun m =>
             with_lastQuery
               {| Query.from := Some (Flight.from f); Query.to := Some (Flight.to f);
                  Query.date := Some (Flight.date f) |}
               (with_chosenFlightId id m)) st in
      let s :=
        addAgent
          (str "Selected " ++ Flight.airline f ++ str " " ++ Flight.id f
           ++ str " " ++ Flight.from f ++ str "?" ++ Flight.to f
           ++ str " on " ++ Flight.date f ++ str " (" ++ Flight.class f
           ++ str ", " ++ formatCurrency (Flight.price f) ++ str ").") s in
      if Flight.overnight f then
        let s := setMemory (with_hotelRequired true) s in
        let s := searchHotels (persona (memory st)) (Flight.to f) s in
        addAgent (str "This is an overnight flight; I will arrange a hotel.") s
      else s
  end.

End Chat.

(** ** [loadMemory]

    [JSON.parse] yields any JSON value, and the cast [as Memory] checks
    nothing, so what [loadMemory] returns is an object with whatever
    properties the stored text gave it: a finite map from property names to
    JSON values. *)

#[local] Unset Elimination Schemes.
Inductive JValue :=
| JNull
| JBool (b : bool)
| JNum (q : Q)
| JStr (s : jsstring)
| JArr (items : list JValue)
| JObj (fields : list (jsstring * JValue)).
#[local] Set Elimination Schemes.

(** What [window.localStorage.getItem(STORAGE_KEY)] does: it throws, or it
    returns [null] or the stored text. *)
Inductive GetItem :=
| Throws
| Returns (raw : option jsstring).

(** The decimal name of an array index. *)
Definition indexName (i : nat) : jsstring :=
  str (NilEmpty.string_of_uint (Nat.to_uint i)).

(** The own enumerable properties that a spread [...v] copies: the fields
    of an object (a repeated name keeps its last value), the indices of an
    array or of a string, nothing for [null], a boolean or a number. *)
Definition spread (v : JValue) : gmap jsstring JValue :=
  match v with
  | JObj fields => list_to_map (rev fields)
  | JArr items => list_to_map (imap (fun i x => (indexName i, x)) items)
  | JStr s => list_to_map (imap (fun i c => (indexName i, JStr [c])) s)
  | _ => ∅
  end.

(** [{ persona: 'Business' }] *)
Definition defaultMemory : gmap jsstring JValue :=
  {[ str "persona" := JStr (str "Business") ]}.

Section Storage.
(** [JSON.parse]: [None] when it throws. *)
Variable JSON_parse : jsstring -> option JValue.

(** [window] is [None] where [typeof window === 'undefined']. *)
Definition loadMemory (window : option GetItem) : gmap jsstring JValue :=
  match window with
  | None => defaultMemory
  | Some Throws => defaultMemory
  | Some (Returns raw) =>
      if truthy raw then
        match JSON_parse (default [] raw) with
        | Some parsed => spread parsed ∪ defaultMemory
        | None => defaultMemory
        end
      else defaultMemory
  end.
End Storage.

(** ** The orders of the specification

    Stated from the prose, to compare the sorts of the component with. *)

(** Descending persona score, ties broken by ascending price. *)
Definition flight_before (p : Persona) (a b : Flight.t) : Prop :=
  (personaScore p b < personaScore p a)%Z
  ∨ (personaScore p a = personaScore p b ∧ (Flight.price a <= Flight.price b)%Q).

(** Flights that neither score nor price tells apart. *)
Definition flight_tied (p : Persona) (a b : Flight.t) : bool :=
  (personaScore p a =? personaScore p b)%Z
  && Qeq_bool (Flight.price a) (Flight.price b).

(** Descending stars, ties broken by ascending price. *)
Definition hotel_before (a b : Hotel.t) : Prop :=
  (Hotel.stars b < Hotel.stars a)%Z
  ∨ (Hotel.stars a = Hotel.stars b ∧ (Hotel.price a <= Hotel.price b)%Q).

(** The elements that a comparator ranks level with [a]. *)
Definition level {A} (cmp : A -> A -> Q) (a x : A) : bool :=
  Qle_bool (cmp a x) 0 && Qle_bool (cmp x a) 0.

(** The order a comparator induces: [x] may stand before [y]. *)
Definition before {A} (cmp : A -> A -> Q) (x y : A) : Prop := (cmp x y <= 0)%Q.

(** Equality of two code units, and of two strings, up to the case of
    their ASCII letters. *)
Definition fold_eq (x y : N) : bool :=
  ((x =? y) || (Char.is_upper x && (y =? x + 32))
   || (Char.is_lower x && (x =? y + 32)))%N.

Definition eq_ignore_case (a b : jsstring) : Prop :=
  Forall2 (fun x y => fold_eq x y = true) a b.

(** A fare class the scoring table knows. *)
Definition recognized (c : jsstring) : Prop :=
  eq_ignore_case c (str "first") ∨ eq_ignore_case c (str "business")
  ∨ eq_ignore_case c (str "economy").

(** The share of the overnight flag in the score. *)
Definition overnightScore (p : Persona) (o : bool) : Z :=
  match p, o with
  | Rich, true => -1
  | Rich, false => 0
  | Business, true => 0
  | Business, false => 1
  end.

(** The state of a session that starts from the Memory [m]. *)
Definition initialState (m : Memory) : State :=
  {| memory := m; messages := []; input := []; flights := []; hotels := [];
     requests := [] |}.

(** ** Sample data, for the scenarios *)

Module Sample.
Definition flight (id from to date class : string) (price : Z) (overnight : bool)
    : Flight.t :=
  {| Flight.id := str id; Flight.from := str from; Flight.to := str to;
     Flight.date := str date; Flight.depart := str "08:00";
     Flight.arrive := str "11:30"; Flight.airline := str "Air";
     Flight.class := str class; Flight.price := inject_Z price;
     Flight.overnight := overnight |}.

Definition hotel (id city name : string) (stars price : Z) : Hotel.t :=
  {| Hotel.id := str id; Hotel.city := str city; Hotel.name := str name;
     Hotel.stars := stars; Hotel.price := inject_Z price |}.

Definition flightsData : list Flight.t :=
  [ flight "F1" "NYC" "LAX" "2025-11-10" "Economy" 300 false;
    flight "F2" "NYC" "LAX" "2025-11-10" "Business" 900 false;
    flight "F3" "NYC" "LHR" "2025-11-12" "First" 4000 true;
    flight "F4" "SFO" "NRT" "2025-11-12" "Business" 2500 true ].

Definition hotelsData : list Hotel.t :=
  [ hotel "H1" "LAX" "Palm" 3 90;
    hotel "H2" "LAX" "Bay" 4 180;
    hotel "H3" "LAX" "Crown" 5 420;
    hotel "H4" "LHR" "Wren" 5 380;
    hotel "H5" "SEA" "Pier" 4 150 ].

Definition now (n : nat) : N := 1700000000000 + N.of_nat n.

Definition formatCurrency (q : Q) : jsstring :=
  str "$" ++ indexName (Z.to_nat (Qnum q / Zpos (Qden q))).

Definition memory0 : Memory :=
  {| persona := Business; lastQuery := None; chosenFlightId := None;
     hotelRequired := None |}.

(** The sample rows and utterances are ASCII text, where upper-casing is
    the letter map. *)
Definition upperCase : jsstring -> jsstring := toUpperCase.

Definition submit (utterance : string) (s : State) : State :=
  handleSubmit upperCase flightsData hotelsData now (setInput (str utterance) s).
End Sample.

(** Two stored texts that parse but are no Memory, [{"persona":null}] and
    the JSON string ["ab"] with its quotes, and what [JSON.parse] makes of
    them. *)
Definition nullPersonaText : jsstring :=
  [123%N; 34%N] ++ str "persona" ++ [34%N; 58%N] ++ str "null}".

Definition quotedText : jsstring := [34%N] ++ str "ab" ++ [34%N].

Definition parseStored (raw : jsstring) : option JValue :=
  if jsstring_eqb raw nullPersonaText then Some (JObj [(str "persona", JNull)])
  else if jsstring_eqb raw quotedText then Some (JStr (str "ab"))
  else None.

(** The utterance of the worked scenario and the query it should give. *)
Definition scenario_utterance : jsstring :=
  str "flights from NYC to LAX on 2025-11-10".

Definition scenario_triple : Query.t :=
  {| Query.from := Some (str "NYC"); Query.to := Some (str "LAX");
     Query.date := Some (str "2025-11-10") |}.

(** ** Occurrences of a keyword in an utterance *)

(** [/w\s+([A-Za-z]{3})/i] for a keyword [w]: the shape of [from_re] and
    of [to_re]. *)
Definition keyword_re (w : jsstring) : regex :=
  Cat (word Char.eq_i w)
      (Cat (Plus (Chr Char.is_space)) (Group (Rep 3 (Chr Char.is_alpha)))).

Definition spaces (ws : jsstring) : Prop := Forall (fun c => Char.is_space c = true) ws.
Definition letters (l : jsstring) : Prop := Forall (fun c => Char.is_alpha c = true) l.

(** Right after the prefix [pre] of [s] stands the keyword [w], in any
    letter case, then whitespace, then the three letters [l]. *)
Definition keyword_then_letters (w pre s l : jsstring) : Prop :=
  ∃ kw ws rest,
    s = pre ++ kw ++ ws ++ l ++ rest ∧ eq_ignore_case kw w
    ∧ ws ≠ [] ∧ spaces ws ∧ length l = 3%nat ∧ letters l.

(** No match of [r] in [s] starts at any of the first [n] positions. *)
Definition no_match_before (r : regex) (s : jsstring) (n : nat) : bool :=
  forallb (fun i => negb (bool_decide (is_Some (match_here r (rev (take i s)) (drop i s)))))
          (seq 0 n).

(** ** What a text turn does about hotels *)

(** The city of the hotel search of a turn, if the turn makes one; [q] is
    the trimmed utterance. *)
Definition hotelCity (st : State) (q : jsstring) : option jsstring :=
  if needsHotel q (flights st)
  then match arrivalCity (newMemory (memory st) q) (flights st) with
       | [] => None
       | city => Some city
       end
  else None.

(** The transcript without its timestamps. *)
Definition transcript (s : State) : list (Role * jsstring) :=
  List.map (fun m => (role m, text m)) (messages s).

(** Between [st] and [st'] a hotel search for [city] was the last thing
    done: the request, the stored list, the flag and the message. *)
Definition hotelSearchFor (upperCase : jsstring -> jsstring)
    (hotelsData : list Hotel.t) (city : jsstring)
    (st st' : State) : Prop :=
  last (requests st') = Some (GetHotels city (minStars (persona (memory st))))
  ∧ hotels st'
    = rankHotels (Api.hotels upperCase hotelsData (Some city)
                    (Some (minStars (persona (memory st)))))
  ∧ hotelRequired (memory st') = Some true
  ∧ last (transcript st') = Some (agent, hotelRequiredIn city).

(** Between [st] and [st'] nothing was done about hotels. *)
Definition noHotelSearch (st st' : State) : Prop :=
  (∀ city n, ¬ In (GetHotels city n) (drop (length (requests st)) (requests st')))
  ∧ hotels st' = hotels st
  ∧ hotelRequired (memory st') = hotelRequired (memory st)
  ∧ (∀ city, ¬ In (agent, hotelRequiredIn city)
                  (drop (length (transcript st)) (transcript st'))).

(** ** The rest of the component: the events of the page *)

(** [onClick] of the Refresh Flights button:
    [memory.lastQuery && searchFlights(memory.lastQuery)]. *)
Definition refreshFlights (upperCase : jsstring -> jsstring)
    (flightsData : list Flight.t) (st : State) : State :=
  match lastQuery (memory st) with
  | Some q => searchFlights upperCase flightsData (persona (memory st)) q st
  | None => st
  end.

(** What the user can do on the page: type into the input ([onChange] sets
    [input]), submit the form, pick a persona in the select, press Select on
    a flight, press Refresh Flights. *)
Inductive Event :=
| Typed (v : jsstring)
| Submitted
| PersonaChosen (p : Persona)
| FlightSelected (id : jsstring)
| RefreshClicked.

Section Page.
Variable upperCase : jsstring -> jsstring.
Variable flightsData : list Flight.t.
Variable hotelsData : list Hotel.t.
Variable now : nat -> N.
Variable formatCurrency : Q -> jsstring.

Definition handle (ev : Event) (st : State) : State :=
  match ev with
  | Typed v => setInput v st
  | Submitted => handleSubmit upperCase flightsData hotelsData now st
  | PersonaChosen p => choosePersona now p st
  | FlightSelected id => selectFlight upperCase hotelsData now formatCurrency id st
  | RefreshClicked => refreshFlights upperCase flightsData st
  end.

(** Each event is handled to completion before the next. *)
Definition session (evs : list Event) (st : State) : State :=
  fold_left (fun s ev => handle ev s) evs st.
End Page.

(** The persona a sequence of events leaves selected. *)
Definition lastPersona (evs : list Event) (p0 : Persona) : Persona :=
  fold_left (fun p ev => match ev with PersonaChosen p' => p' | _ => p end) evs p0.

(** The agent texts of [selectFlight] and [choosePersona]. *)
Definition selectedText (formatCurrency : Q -> jsstring) (f : Flight.t) : jsstring :=
  str "Selected " ++ Flight.airline f ++ str " " ++ Flight.id f
  ++ str " " ++ Flight.from f ++ str "?" ++ Flight.to f
  ++ str " on " ++ Flight.date f ++ str " (" ++ Flight.class f
  ++ str ", " ++ formatCurrency (Flight.price f) ++ str ").".

Definition overnightText : jsstring :=
  str "This is an overnight flight; I will arrange a hotel.".

(** ** Shapes of what the extractor returns *)

(** Three letters [A]-[Z]. *)
Definition airport_code (s : jsstring) : Prop :=
  length s = 3%nat ∧ Forall (fun c => Char.is_upper c = true) s.

(** [dddd-dd-dd] *)
Definition date_shaped (s : jsstring) : Prop :=
  ∃ y1 y2 y3 y4 m1 m2 d1 d2,
    s = [y1; y2; y3; y4; 45%N; m1; m2; 45%N; d1; d2]
    ∧ Forall (fun c => Char.is_digit c = true) [y1; y2; y3; y4; m1; m2; d1; d2].

(** [w] occurs in [s], in any letter case. *)
Definition contains_word (s : jsstring) (w : string) : Prop :=
  ∃ pre kw post, s = pre ++ kw ++ post ∧ eq_ignore_case kw (str w).

(** ** Properties of a state that sessions keep *)

(** Everything listed comes from the data files, and every listed hotel has
    at least four stars. *)
Definition held_from_data (flightsData : list Flight.t) (hotelsData : list Hotel.t)
    (st : State) : Prop :=
  (∀ f, In f (flights st) -> In f flightsData)
  ∧ (∀ h, In h (hotels st) -> In h hotelsData ∧ (4 <= Hotel.stars h)%Z).

(** A hotel has been searched for or is listed. *)
Definition hotels_in_play (st : State) : Prop :=
  hotels st ≠ [] ∨ ∃ city n, In (GetHotels city n) (requests st).

(** The chosen flight, if any, is a flight of the data file. *)
Definition chosen_from_data (flightsData : list Flight.t) (st : State) : Prop :=
  ∀ id, chosenFlightId (memory st) = Some id ->
        ∃ f, In f flightsData ∧ Flight.id f = id.

(** ** [saveMemory] *)

(** [JSON.stringify] writes the properties whose value is not
    [undefined]. *)
Definition defined_fields (l : list (string * option JValue))
    : list (jsstring * JValue) :=
  omap (fun kv => (fun v => (str (fst kv), v)) <$> snd kv) l.

(** The JSON value that [JSON.stringify(memory)] writes down. *)
Definition queryJSON (q : Query.t) : JValue :=
  JObj (defined_fields
          [("from"%string, JStr <$> Query.from q); ("to"%string, JStr <$> Query.to q);
           ("date"%string, JStr <$> Query.date q)]).

Definition memoryJSON (m : Memory) : JValue :=
  JObj (defined_fields
          [("persona"%string, Some (JStr (personaName (persona m))));
           ("lastQuery"%string, queryJSON <$> lastQuery m);
           ("chosenFlightId"%string, JStr <$> chosenFlightId m);
           ("hotelRequired"%string, JBool <$> hotelRequired m)]).

(** [saveMemory]: the text under [STORAGE_KEY] afterwards; without a window
    nothing is written. *)
Definition saveMemory (JSON_stringify : JValue -> jsstring) (hasWindow : bool)
    (memory : Memory) (stored : option jsstring) : option jsstring :=
  if hasWindow then Some (JSON_stringify (memoryJSON memory)) else stored.

(** The Memory that a loaded object denotes when it is well typed, read the
    way the component reads it: [persona === 'Rich'] or else Business,
    [lastQuery?.from], and so on. *)
Definition asString (v : option JValue) : option jsstring :=
  match v with
  | Some (JStr s) => Some s
  | _ => None
  end.

Definition readQuery (v : JValue) : Query.t :=
  {| Query.from := asString (spread v !! str "from");
     Query.to := asString (spread v !! str "to");
     Query.date := asString (spread v !! str "date") |}.

Definition readMemory (o : gmap jsstring JValue) : Memory :=
  {| persona :=
       match o !! str "persona" with
       | Some (JStr s) => if jsstring_eqb s (str "Rich") then Rich else Business
       | _ => Business
       end;
     lastQuery :=
       match o !! str "lastQuery" with
       | Some (JObj fields) => Some (readQuery (JObj fields))
       | _ => None
       end;
     chosenFlightId := asString (o !! str "chosenFlightId");
     hotelRequired :=
       match o !! str "hotelRequired" with
       | Some (JBool b) => Some b
       | _ => None
       end |}.

(** * Properties *)

(** ** A text turn, field by field *)

Section Turn.
Variable upperCase : jsstring -> jsstring.
Variable flightsData : list Flight.t.
Variable hotelsData : list Hotel.t.
Variable now : nat -> N.

Ltac turn_cases st q :=
  unfold handleSubmit, hotelCity;
  let c := fresh "c" in let q' := fresh "q" in let E := fresh "E" in
  destruct q as [|c q']; [done|];
  intros E _; rewrite E; cbv beta iota zeta;
  destruct (searchesFlights _ _); destruct (needsHotel _ _);
  try destruct (arrivalCity _ _).

Lemma handleSubmit_memory st q :
  trim (input st) = q -> q ≠ [] ->
  memory (handleSubmit upperCase flightsData hotelsData now st)
  = match hotelCity st q with
    | Some _ => with_hotelRequired true (newMemory (memory st) q)
    | None => newMemory (memory st) q
    end.
Proof. turn_cases st q; reflexivity. Qed.

Lemma handleSubmit_requests st q :
  trim (input st) = q -> q ≠ [] ->
  requests (handleSubmit upperCase flightsData hotelsData now st)
  = requests st
    ++ (if searchesFlights q (flights st)
        then [GetFlights (queryString (mergeQuery (memory st) (extract q)))]
        else [])
    ++ match hotelCity st q with
       | Some city => [GetHotels city (minStars (persona (memory st)))]
       | None => []
       end.
Proof.
  turn_cases st q; cbn; rewrite ?app_nil_r; try reflexivity;
    destruct (persona (memory st)); cbn; by rewrite <- ?app_assoc.
Qed.

Lemma handleSubmit_flights st q :
  trim (input st) = q -> q ≠ [] ->
  flights (handleSubmit upperCase flightsData hotelsData now st)
  = if searchesFlights q (flights st)
    then rankFlights (persona (memory st))
           (Api.flights upperCase flightsData
              (queryString (mergeQuery (memory st) (extract q))))
    else flights st.
Proof. turn_cases st q; reflexivity. Qed.

Lemma handleSubmit_hotels st q :
  trim (input st) = q -> q ≠ [] ->
  hotels (handleSubmit upperCase flightsData hotelsData now st)
  = match hotelCity st q with
    | Some city =>
        rankHotels (Api.hotels upperCase hotelsData (Some city)
                      (Some (minStars (persona (memory st)))))
    | None => hotels st
    end.
Proof.
  turn_cases st q; try reflexivity; by destruct (persona (memory st)).
Qed.

Lemma handleSubmit_transcript st q :
  trim (input st) = q -> q ≠ [] ->
  transcript (handleSubmit upperCase flightsData hotelsData now st)
  = transcript st ++ [(user, q)]
    ++ (if searchesFlights q (flights st) then [(agent, foundFlights)] else [])
    ++ match hotelCity st q with
       | Some city => [(agent, hotelRequiredIn city)]
       | None => []
       end.
Proof.
  turn_cases st q; unfold transcript; cbn;
    rewrite ?List.map_app; cbn; by rewrite <- ?app_assoc.
Qed.

Lemma handleSubmit_empty st :
  trim (input st) = [] -> handleSubmit upperCase flightsData hotelsData now st = st.
Proof. intros E. unfold handleSubmit. by rewrite E. Qed.

(** The [lastQuery] a text turn leaves in Memory is the merge of what the
    utterance gave into what Memory held, whether or not the turn went on
    to search for hotels. *)
Lemma handleSubmit_lastQuery st :
  trim (input st) ≠ [] ->
  lastQuery (memory (handleSubmit upperCase flightsData hotelsData now st))
  = Some (mergeQuery (memory st) (extract (trim (input st)))).
Proof.
  intros Hq. rewrite (handleSubmit_memory st _ eq_refl Hq).
  by destruct (hotelCity _ _).
Qed.

Lemma turn_hotel_search st q city :
  trim (input st) = q -> q ≠ [] -> hotelCity st q = Some city ->
  hotelSearchFor upperCase hotelsData city st (handleSubmit upperCase flightsData hotelsData now st).
Proof.
  intros Hq Hne Hcity. unfold hotelSearchFor.
  rewrite (handleSubmit_requests st q), (handleSubmit_hotels st q),
    (handleSubmit_memory st q), (handleSubmit_transcript st q), Hcity by done.
  repeat split.
  - by rewrite !app_assoc, last_snoc.
  - change [(user, q)] with ([] ++ [(user, q)]).
    by rewrite !app_assoc, last_snoc.
Qed.

Lemma foundFlights_not_hotel city : foundFlights ≠ hotelRequiredIn city.
Proof. unfold foundFlights, hotelRequiredIn. cbn. discriminate. Qed.

Lemma turn_no_hotel_search st q :
  trim (input st) = q -> q ≠ [] -> hotelCity st q = None ->
  noHotelSearch st (handleSubmit upperCase flightsData hotelsData now st).
Proof.
  intros Hq Hne Hcity. unfold noHotelSearch.
  rewrite (handleSubmit_requests st q), (handleSubmit_hotels st q),
    (handleSubmit_memory st q), (handleSubmit_transcript st q), Hcity by done.
  rewrite !drop_app_length, app_nil_r.
  repeat split.
  - intros city n. destruct (searchesFlights _ _); cbn [app In]; [|tauto].
    intros [H|[]]. discriminate.
  - intros city. destruct (searchesFlights _ _); cbn [app In].
    + intros [H|[H|[]]]; [discriminate|].
      apply (f_equal snd) in H. cbn [snd] in H.
      by apply foundFlights_not_hotel in H.
    + intros [H|[]]. discriminate.
Qed.
End Turn.

(** ** Sorting *)

Section SortFacts.
Context {A : Type} (cmp : A -> A -> Q).

Lemma insert_sorted_perm x l : Permutation (x :: l) (insert_sorted cmp x l).
Proof.
  induction l as [|y l IH]; cbn; [done|].
  destruct (Qle_bool (cmp x y) 0); [done|].
  rewrite perm_swap. by constructor.
Qed.

Lemma sort_perm l : Permutation l (sort cmp l).
Proof.
  induction l as [|x l IH]; cbn; [done|].
  rewrite <- insert_sorted_perm. by constructor.
Qed.

(** A list already in order is returned as it is. *)
Lemma sort_sorted_id l : Sorted (before cmp) l -> sort cmp l = l.
Proof.
  induction 1 as [|x l Hl IH Hx]; cbn; [done|].
  rewrite IH. destruct Hx as [|y l Hxy]; cbn; [done|].
  apply Qle_bool_iff in Hxy. by rewrite Hxy.
Qed.

(** The comparator is consistent: its sign is antisymmetric and the
    order it induces is transitive. *)
Hypothesis cmp_antisym : ∀ x y, ¬ (cmp x y <= 0)%Q -> (cmp y x <= 0)%Q.
Hypothesis cmp_trans :
  ∀ x y z, (cmp x y <= 0)%Q -> (cmp y z <= 0)%Q -> (cmp x z <= 0)%Q.

Lemma insert_sorted_strongly x l :
  StronglySorted (before cmp) l -> StronglySorted (before cmp) (insert_sorted cmp x l).
Proof.
  induction 1 as [|y l Hl IH Hy]; cbn.
  - repeat constructor.
  - destruct (Qle_bool (cmp x y) 0) eqn:E.
    + apply Qle_bool_iff in E. constructor; [by constructor|].
      constructor; [done|].
      eapply List.Forall_impl; [|exact Hy]. intros z Hz. by eapply cmp_trans.
    + constructor; [done|].
      assert (Hyx : before cmp y x).
      { apply cmp_antisym. intros H. apply Qle_bool_iff in H. congruence. }
      eapply Permutation_Forall; [apply insert_sorted_perm|].
      by constructor.
Qed.

Lemma sort_strongly_sorted l : StronglySorted (before cmp) (sort cmp l).
Proof.
  induction l as [|x l IH]; cbn; [constructor|].
  by apply insert_sorted_strongly.
Qed.

Lemma sort_idempotent l : sort cmp (sort cmp l) = sort cmp l.
Proof.
  apply sort_sorted_id, StronglySorted_Sorted, sort_strongly_sorted.
Qed.

(** Stability: the elements level with [a] keep their input order. *)
Lemma insert_sorted_level a x l :
  List.filter (level cmp a) (insert_sorted cmp x l)
  = List.filter (level cmp a) (x :: l).
Proof.
  induction l as [|y l IH]; [done|].
  cbn [insert_sorted].
  destruct (Qle_bool (cmp x y) 0) eqn:E; [done|].
  cbn [List.filter] in *. rewrite IH.
  destruct (level cmp a x) eqn:Hx, (level cmp a y) eqn:Hy; try done.
  exfalso.
  apply andb_prop in Hx as [_ Hx]. apply andb_prop in Hy as [Hy _].
  apply Qle_bool_iff in Hx, Hy.
  pose proof (cmp_trans _ _ _ Hx Hy) as H.
  apply Qle_bool_iff in H. congruence.
Qed.

Lemma sort_stable a l :
  List.filter (level cmp a) (sort cmp l) = List.filter (level cmp a) l.
Proof.
  induction l as [|x l IH]; [done|].
  cbn [sort]. rewrite insert_sorted_level. cbn. by rewrite IH.
Qed.
End SortFacts.

Lemma num_or_le0 (z : Z) (q : Q) :
  (num_or (inject_Z z) q <= 0)%Q <-> (z < 0)%Z ∨ (z = 0%Z ∧ (q <= 0)%Q).
Proof.
  unfold num_or. destruct (Qeq_bool (inject_Z z) 0) eqn:E.
  - apply Qeq_bool_iff in E. unfold Qeq in E; cbn in E.
    split; [intros H; right; split; [lia|done] | intros [H|[_ H]]; [lia|done]].
  - apply Qeq_bool_neq in E. unfold Qeq in E; cbn in E.
    unfold Qle; cbn. lia.
Qed.

Lemma cmpFlights_before p a b :
  before (cmpFlights p) a b <-> flight_before p a b.
Proof.
  unfold before, cmpFlights, flight_before. rewrite num_or_le0.
  split; (intros [H|[H1 H2]]; [left; lia | right; split; [lia|lra]]).
Qed.

Lemma cmpHotels_before a b : before cmpHotels a b <-> hotel_before a b.
Proof.
  unfold before, cmpHotels, hotel_before. rewrite num_or_le0.
  split; (intros [H|[H1 H2]]; [left; lia | right; split; [lia|lra]]).
Qed.

Lemma cmpFlights_antisym p x y :
  ¬ (cmpFlights p x y <= 0)%Q -> (cmpFlights p y x <= 0)%Q.
Proof.
  intros H. apply cmpFlights_before.
  assert (H' : ¬ flight_before p x y) by (by rewrite <- cmpFlights_before).
  unfold flight_before in *.
  destruct (Z.lt_trichotomy (personaScore p x) (personaScore p y)) as [?|[?|?]];
    [tauto| |tauto].
  right. split; [done|].
  destruct (Qlt_le_dec (Flight.price y) (Flight.price x)) as [?|?]; [lra|].
  exfalso. apply H'. right. split; [done|lra].
Qed.

Lemma cmpFlights_trans p x y z :
  (cmpFlights p x y <= 0)%Q -> (cmpFlights p y z <= 0)%Q ->
  (cmpFlights p x z <= 0)%Q.
Proof.
  intros H1%cmpFlights_before H2%cmpFlights_before. apply cmpFlights_before.
  unfold flight_before in *.
  destruct H1 as [?|[? ?]], H2 as [?|[? ?]];
    [left; lia | left; lia | left; lia | right; split; [lia|lra]].
Qed.

Lemma cmpHotels_antisym x y :
  ¬ (cmpHotels x y <= 0)%Q -> (cmpHotels y x <= 0)%Q.
Proof.
  intros H. apply cmpHotels_before.
  assert (H' : ¬ hotel_before x y) by (by rewrite <- cmpHotels_before).
  unfold hotel_before in *.
  destruct (Z.lt_trichotomy (Hotel.stars x) (Hotel.stars y)) as [?|[?|?]];
    [tauto| |tauto].
  right. split; [done|].
  destruct (Qlt_le_dec (Hotel.price y) (Hotel.price x)) as [?|?]; [lra|].
  exfalso. apply H'. right. split; [done|lra].
Qed.

Lemma cmpHotels_trans x y z :
  (cmpHotels x y <= 0)%Q -> (cmpHotels y z <= 0)%Q -> (cmpHotels x z <= 0)%Q.
Proof.
  intros H1%cmpHotels_before H2%cmpHotels_before. apply cmpHotels_before.
  unfold hotel_before in *.
  destruct H1 as [?|[? ?]], H2 as [?|[? ?]];
    [left; lia | left; lia | left; lia | right; split; [lia|lra]].
Qed.

Lemma level_flight_tied p a x : level (cmpFlights p) a x = flight_tied p a x.
Proof.
  apply eq_true_iff_eq. unfold level, flight_tied.
  rewrite !andb_true_iff, !Qle_bool_iff, Z.eqb_eq, Qeq_bool_iff.
  change (before (cmpFlights p) a x ∧ before (cmpFlights p) x a
          <-> personaScore p a = personaScore p x
              ∧ (Flight.price a == Flight.price x)%Q).
  rewrite !cmpFlights_before. unfold flight_before.
  split.
  - intros [[?|[? ?]] [?|[? ?]]]; try lia. split; [done|lra].
  - intros [? ?]. split; right; (split; [lia|lra]).
Qed.

Lemma StronglySorted_impl {A} (R S : A -> A -> Prop) l :
  (∀ x y, R x y -> S x y) -> StronglySorted R l -> StronglySorted S l.
Proof.
  intros HRS. induction 1 as [|x l Hl IH Hx]; constructor; [done|].
  eapply List.Forall_impl; [|exact Hx]. auto.
Qed.

(** ** Ranking *)

Lemma searchFlights_flights upperCase data p params s :
  flights (searchFlights upperCase data p params s)
  = rankFlights p (Api.flights upperCase data (queryString params)).
Proof. reflexivity. Qed.

Lemma searchHotels_hotels upperCase data p city s :
  hotels (searchHotels upperCase data p city s)
  = rankHotels (Api.hotels upperCase data (Some city) (Some (minStars p))).
Proof. by destruct p. Qed.

(** C5. Ranking is a stable sort by descending persona score, then
    ascending price: the ranked list is a rearrangement of the input in
    that order, flights level on both keys keep their input order, and
    ranking a ranked list again returns it as it is. [searchFlights] stores
    exactly this ranking of what the route returned. *)
Theorem rank_stable_idempotent (p : Persona) (l : list Flight.t) :
  let ranked := rankFlights p l in
  Permutation l ranked
  ∧ StronglySorted (flight_before p) ranked
  ∧ (∀ a, List.filter (flight_tied p a) ranked = List.filter (flight_tied p a) l)
  ∧ rankFlights p ranked = ranked
  ∧ (∀ upperCase data params s,
       Api.flights upperCase data (queryString params) = l ->
       flights (searchFlights upperCase data p params s) = ranked).
Proof.
  cbn zeta. unfold rankFlights. repeat split.
  - apply sort_perm.
  - eapply StronglySorted_impl; [intros x y; apply cmpFlights_before|].
    apply sort_strongly_sorted;
      [apply cmpFlights_antisym | apply cmpFlights_trans].
  - intros a.
    rewrite <- !(List.filter_ext _ _ (level_flight_tied p a)).
    apply sort_stable, cmpFlights_trans.
  - apply sort_idempotent; [apply cmpFlights_antisym | apply cmpFlights_trans].
  - intros upperCase data params s <-. apply searchFlights_flights.
Qed.

Lemma Api_hotels_stars upperCase data city n h :
  n ≠ 0%Z -> In h (Api.hotels upperCase data city (Some n)) -> (n <= Hotel.stars h)%Z.
Proof.
  intros Hn. unfold Api.hotels. cbn [default from_option id].
  destruct (n =? 0)%Z eqn:E; [apply Z.eqb_eq in E; done|]. cbn [negb].
  intros [_ H]%List.filter_In. by apply Z.leb_le.
Qed.

Lemma selectFlight_hotels upperCase data now formatCurrency id st f :
  List.find (fun x => jsstring_eqb (Flight.id x) id) (flights st) = Some f ->
  Flight.overnight f = true ->
  hotels (selectFlight upperCase data now formatCurrency id st)
  = hotels (searchHotels upperCase data (persona (memory st)) (Flight.to f) st).
Proof.
  intros Hfind Hov. unfold selectFlight. rewrite Hfind, Hov.
  by destruct (persona (memory st)).
Qed.

(** C4. The hotel list that a hotel search stores holds only hotels of at
    least 5 stars for Rich and 4 stars for Business, in descending order of
    stars with ties in ascending order of price. It is the list shown after
    a text turn that searches hotels and after the selection of an
    overnight flight, for the persona of that moment. *)
Theorem hotels_meet_min_stars (upperCase : jsstring -> jsstring)
    (data : list Hotel.t) (p : Persona)
    (city : jsstring) (s : State) :
  let shown := hotels (searchHotels upperCase data p city s) in
  (∀ h, In h shown ->
        (match p with Rich => 5 | Business => 4 end <= Hotel.stars h)%Z)
  ∧ StronglySorted hotel_before shown
  ∧ (∀ flightsData now st q,
       persona (memory st) = p -> trim (input st) = q -> q ≠ [] ->
       hotelCity st q = Some city ->
       hotels (handleSubmit upperCase flightsData data now st) = shown)
  ∧ (∀ now formatCurrency st id f,
       persona (memory st) = p ->
       List.find (fun x => jsstring_eqb (Flight.id x) id) (flights st) = Some f ->
       Flight.overnight f = true -> Flight.to f = city ->
       hotels (selectFlight upperCase data now formatCurrency id st) = shown).
Proof.
  cbn zeta. rewrite searchHotels_hotels. unfold rankHotels.
  split; [|split; [|split]].
  - intros h Hh.
    apply (Permutation_in _ (Permutation_sym (sort_perm cmpHotels _))) in Hh.
    apply Api_hotels_stars in Hh; [by destruct p | by destruct p].
  - eapply StronglySorted_impl; [intros x y; apply cmpHotels_before|].
    apply sort_strongly_sorted; [apply cmpHotels_antisym | apply cmpHotels_trans].
  - intros fd now st q <- Hq Hne Hcity.
    by rewrite (handleSubmit_hotels upperCase fd data now st q), Hcity.
  - intros now fc st id f <- Hfind Hov <-.
    by rewrite (selectFlight_hotels _ _ _ _ _ _ _ Hfind Hov), searchHotels_hotels.
Qed.

(** ** Scoring *)

Lemma fold_eq_lower x y : fold_eq x y = true <-> Char.lower x = Char.lower y.
Proof.
  unfold fold_eq, Char.lower, Char.is_upper, Char.is_lower.
  rewrite !orb_true_iff, !andb_true_iff, !N.eqb_eq, !N.leb_le.
  destruct (N.leb_spec 65 x), (N.leb_spec x 90), (N.leb_spec 65 y),
    (N.leb_spec y 90); cbn; lia.
Qed.

Lemma eq_ignore_case_lower a b :
  eq_ignore_case a b <-> toLowerCase a = toLowerCase b.
Proof.
  unfold eq_ignore_case, toLowerCase. split.
  - induction 1 as [|x y a b Hxy _ IH]; cbn; [done|].
    apply fold_eq_lower in Hxy. congruence.
  - revert b. induction a as [|x a IH]; intros [|y b]; cbn; try done.
    intros [= Hxy Hab]. constructor; [by apply fold_eq_lower | by apply IH].
Qed.

Lemma class_is_spec f w :
  toLowerCase (str w) = str w ->
  class_is f w = true <-> eq_ignore_case (Flight.class f) (str w).
Proof.
  intros Hw. unfold class_is, jsstring_eqb.
  by rewrite bool_decide_eq_true, eq_ignore_case_lower, Hw.
Qed.

Lemma lower_first : toLowerCase (str "first") = str "first".
Proof. reflexivity. Qed.

Lemma lower_business : toLowerCase (str "business") = str "business".
Proof. reflexivity. Qed.

Lemma lower_economy : toLowerCase (str "economy") = str "economy".
Proof. reflexivity. Qed.

Lemma class_is_false f w :
  toLowerCase (str w) = str w ->
  ¬ eq_ignore_case (Flight.class f) (str w) -> class_is f w = false.
Proof.
  intros Hw H. destruct (class_is f w) eqn:E; [|done].
  by apply class_is_spec in E.
Qed.

Lemma class_is_lower f w c :
  toLowerCase (Flight.class f) = str c -> class_is f w = jsstring_eqb (str c) (str w).
Proof. intros H. unfold class_is. by rewrite H. Qed.

(** C6. With the overnight flag equal, Rich scores a first-class flight at
    least as high as a business-class one and Business scores a
    business-class flight at least as high as an economy one; the class is
    compared up to letter case, and a class that is none of the three adds
    nothing to the score. *)
Theorem score_monotone (f1 f2 : Flight.t)
    (Hovernight : Flight.overnight f1 = Flight.overnight f2) :
  (eq_ignore_case (Flight.class f1) (str "first") ->
   eq_ignore_case (Flight.class f2) (str "business") ->
   (personaScore Rich f2 <= personaScore Rich f1)%Z)
  ∧ (eq_ignore_case (Flight.class f1) (str "business") ->
     eq_ignore_case (Flight.class f2) (str "economy") ->
     (personaScore Business f2 <= personaScore Business f1)%Z)
  ∧ (∀ p, eq_ignore_case (Flight.class f1) (Flight.class f2) ->
          personaScore p f1 = personaScore p f2)
  ∧ (∀ p, ¬ recognized (Flight.class f1) ->
          personaScore p f1 = overnightScore p (Flight.overnight f1)).
Proof.
  repeat split.
  - intros H1%eq_ignore_case_lower H2%eq_ignore_case_lower.
    rewrite lower_first in H1. rewrite lower_business in H2.
    unfold personaScore.
    rewrite !(class_is_lower f1 _ _ H1), !(class_is_lower f2 _ _ H2), Hovernight.
    destruct (Flight.overnight f2); vm_compute; discriminate.
  - intros H1%eq_ignore_case_lower H2%eq_ignore_case_lower.
    rewrite lower_business in H1. rewrite lower_economy in H2.
    unfold personaScore.
    rewrite !(class_is_lower f1 _ _ H1), !(class_is_lower f2 _ _ H2), Hovernight.
    destruct (Flight.overnight f2); vm_compute; discriminate.
  - intros p H%eq_ignore_case_lower.
    unfold personaScore, class_is. by rewrite H, Hovernight.
  - intros p H. unfold recognized in H.
    unfold personaScore.
    rewrite (class_is_false f1 "first"), (class_is_false f1 "business"),
      (class_is_false f1 "economy") by (done || tauto).
    by destruct p, (Flight.overnight f1).
Qed.

Lemma score_monotone_witness :
  (personaScore Rich (Sample.flight "B" "NYC" "LAX" "2025-11-10" "BUSINESS" 900 true)
   <= personaScore Rich (Sample.flight "A" "NYC" "LAX" "2025-11-10" "First" 4000 true))%Z.
Proof.
  apply (score_monotone
           (Sample.flight "A" "NYC" "LAX" "2025-11-10" "First" 4000 true)
           (Sample.flight "B" "NYC" "LAX" "2025-11-10" "BUSINESS" 900 true)).
  - reflexivity.
  - apply eq_ignore_case_lower. reflexivity.
  - apply eq_ignore_case_lower. reflexivity.
Defined.

(** ** Flight selection *)

(** C9. Selecting an id that no held flight carries changes nothing: the
    whole state is returned as it was, Memory, transcript, lists and the
    requests sent included. *)
Theorem select_missing_flight (upperCase : jsstring -> jsstring)
    (hotelsData : list Hotel.t) (now : nat -> N)
    (formatCurrency : Q -> jsstring) (id : jsstring) (st : State)
    (Hmissing : ∀ f, In f (flights st) -> Flight.id f ≠ id) :
  selectFlight upperCase hotelsData now formatCurrency id st = st.
Proof.
  unfold selectFlight.
  destruct (List.find _ _) as [f|] eqn:E; [|done].
  apply List.find_some in E as [Hin Heq].
  apply bool_decide_eq_true in Heq. by apply Hmissing in Hin.
Qed.

Lemma select_missing_flight_witness :
  let st := Sample.submit "flights from NYC to LAX" (initialState Sample.memory0) in
  flights st ≠ []
  ∧ selectFlight Sample.upperCase Sample.hotelsData Sample.now Sample.formatCurrency (str "F9") st = st.
Proof.
  split; [vm_compute; discriminate|].
  apply select_missing_flight.
  intros f Hin. vm_compute in Hin.
  destruct Hin as [<-|[<-|[]]]; vm_compute; discriminate.
Defined.

(** ** Loading Memory *)

(** C7, as the code has it. [loadMemory] returns an object whatever the
    store holds, also where reading the store or parsing its text throws.
    It is the default [{persona: Business}] when there is no window, no
    stored text, or text that does not parse, and when the parsed value has
    no properties of its own. Otherwise it is the parsed value's own
    properties laid over the default, taken as they are: nothing checks
    that they make a Memory. So the object always has a [persona] property,
    which is Business unless the parsed value has a [persona] of its own,
    and then is that value, whatever it is. *)
Theorem loadMemory_total (JSON_parse : jsstring -> option JValue)
    (window : option GetItem) :
  let m := loadMemory JSON_parse window in
  is_Some (m !! str "persona")
  ∧ (∀ raw parsed,
       window = Some (Returns (Some raw)) -> raw ≠ [] ->
       JSON_parse raw = Some parsed ->
       ∀ k, m !! k = match spread parsed !! k with
                     | Some v => Some v
                     | None => defaultMemory !! k
                     end)
  ∧ (window = None ∨ window = Some Throws ∨ window = Some (Returns None)
     ∨ window = Some (Returns (Some []))
     ∨ (∃ raw, window = Some (Returns (Some raw)) ∧ JSON_parse raw = None) ->
     m = defaultMemory)
  ∧ (∀ raw parsed,
       window = Some (Returns (Some raw)) -> JSON_parse raw = Some parsed ->
       spread parsed !! str "persona" = None ->
       m !! str "persona" = Some (JStr (str "Business")))
  ∧ (∀ raw parsed v,
       window = Some (Returns (Some raw)) -> raw ≠ [] ->
       JSON_parse raw = Some parsed ->
       spread parsed !! str "persona" = Some v ->
       m !! str "persona" = Some v)
  ∧ (∀ raw parsed,
       window = Some (Returns (Some raw)) -> JSON_parse raw = Some parsed ->
       spread parsed = ∅ -> m = defaultMemory).
Proof.
  cbn zeta. split; [|split; [|split; [|split; [|split]]]].
  - unfold loadMemory.
    assert (Hd : is_Some (defaultMemory !! str "persona")) by (by eexists).
    destruct window as [[|raw]|]; try done.
    destruct (truthy raw); [|done].
    destruct (JSON_parse _) as [parsed|]; [|done].
    apply lookup_union_is_Some. by right.
  - intros raw parsed -> Hraw Hparse k. unfold loadMemory.
    destruct raw as [|c raw]; [done|]. cbn [truthy default from_option id].
    rewrite Hparse.
    destruct (spread parsed !! k) as [v|] eqn:E.
    + by apply lookup_union_Some_l.
    + by apply lookup_union_r.
  - intros [->|[->|[->|[->|(raw & -> & Hparse)]]]]; try done.
    unfold loadMemory. destruct raw as [|c raw]; [done|].
    cbn [truthy default from_option id]. by rewrite Hparse.
  - intros raw parsed -> Hparse Hnone. unfold loadMemory.
    destruct raw as [|c raw]; [done|]. cbn [truthy default from_option id].
    rewrite Hparse. by rewrite lookup_union_r.
  - intros raw parsed v -> Hraw Hparse Hv. unfold loadMemory.
    destruct raw as [|c raw]; [done|]. cbn [truthy default from_option id].
    rewrite Hparse. by apply lookup_union_Some_l.
  - intros raw parsed -> Hparse Hempty. unfold loadMemory.
    destruct raw as [|c raw]; [done|]. cbn [truthy default from_option id].
    rewrite Hparse, Hempty. apply (left_id_L ∅ (∪)).
Qed.

(** A stored [{"persona":null}] is loaded with [persona] null, and a stored
    JSON string is loaded as an object with one property per character
    beside the default persona: neither is the default. *)
Lemma malformed_blob_kept :
  let m1 := loadMemory parseStored (Some (Returns (Some nullPersonaText))) in
  let m2 := loadMemory parseStored (Some (Returns (Some quotedText))) in
  m1 !! str "persona" = Some JNull ∧ m1 ≠ defaultMemory
  ∧ m2 !! str "0" = Some (JStr (str "a")) ∧ m2 ≠ defaultMemory.
Proof.
  cbn zeta.
  assert (H1 : loadMemory parseStored (Some (Returns (Some nullPersonaText)))
               !! str "persona" = Some JNull) by (vm_compute; reflexivity).
  assert (H2 : loadMemory parseStored (Some (Returns (Some quotedText)))
               !! str "0" = Some (JStr (str "a"))) by (vm_compute; reflexivity).
  split; [exact H1|]. split; [intros E; rewrite E in H1; vm_compute in H1; discriminate|].
  split; [exact H2|]. intros E. rewrite E in H2. vm_compute in H2. discriminate.
Qed.

(** A stored object that names a persona keeps it; text that does not parse
    gives the default. *)
Lemma loadMemory_total_witness :
  let parse := fun raw : jsstring =>
    if jsstring_eqb raw (str "rich")
    then Some (JObj [(str "persona", JStr (str "Rich")); (str "hotelRequired", JBool true)])
    else None in
  loadMemory parse (Some (Returns (Some (str "rich")))) !! str "persona"
  = Some (JStr (str "Rich"))
  ∧ loadMemory parse (Some (Returns (Some (str "{oops")))) = defaultMemory.
Proof.
  cbn zeta. split.
  - destruct (loadMemory_total
                (fun raw : jsstring =>
                   if jsstring_eqb raw (str "rich")
                   then Some (JObj [(str "persona", JStr (str "Rich"));
                                    (str "hotelRequired", JBool true)])
                   else None)
                (Some (Returns (Some (str "rich"))))) as (_ & H & _).
    rewrite (H (str "rich") _ eq_refl ltac:(discriminate) eq_refl). reflexivity.
  - destruct (loadMemory_total
                (fun raw : jsstring =>
                   if jsstring_eqb raw (str "rich")
                   then Some (JObj [(str "persona", JStr (str "Rich"));
                                    (str "hotelRequired", JBool true)])
                   else None)
                (Some (Returns (Some (str "{oops"))))) as (_ & _ & H & _).
    apply H. right. right. right. right. exists (str "{oops"). by split.
Defined.

(** ** The matcher *)

Section Matcher.
Implicit Types (b a : list N) (cap : option jsstring) (k : cont).

(** A literal word matches exactly the texts that agree with it
    character by character. *)
Lemma run_word eqc w kw b a cap k :
  Forall2 (fun c x => eqc c x = true) w kw ->
  run (word eqc w) b (kw ++ a) cap k = k (rev kw ++ b) a cap.
Proof.
  intros H. revert b. induction H as [|c x w kw Hcx _ IH]; intros b; [done|].
  cbn. rewrite Hcx, IH. by rewrite <- app_assoc.
Qed.

Lemma run_word_inv eqc w b a cap k x :
  run (word eqc w) b a cap k = Some x ->
  ∃ kw a', a = kw ++ a' ∧ Forall2 (fun c y => eqc c y = true) w kw
           ∧ k (rev kw ++ b) a' cap = Some x.
Proof.
  revert b a. induction w as [|c w IH]; intros b a H; cbn in H.
  - by exists [], a.
  - destruct a as [|y a]; [done|]. destruct (eqc c y) eqn:E; [|done].
    apply IH in H as (kw & a' & -> & Hkw & Hk).
    exists (y :: kw), a'. split; [done|]. split; [by constructor|].
    cbn. by rewrite <- app_assoc.
Qed.

Lemma run_chr p b c a cap k :
  run (Chr p) b (c :: a) cap k = if p c then k (c :: b) a cap else None.
Proof. reflexivity. Qed.

(** Greedy iteration of one character class: it takes the whole run. *)
Lemma star_chr p ws a b cap k fuel x :
  Forall (fun c => p c = true) ws ->
  (length (ws ++ a) <= fuel)%nat ->
  k (rev ws ++ b) a cap = Some x ->
  default false (p <$> head a) = false ->
  star_loop (run (Chr p)) fuel b (ws ++ a) cap k = Some x.
Proof.
  intros Hws. revert b fuel.
  induction Hws as [|c ws Hc _ IH]; intros b fuel Hfuel Hk Ha.
  - cbn in Hk |- *. destruct fuel as [|fuel]; cbn [star_loop]; [done|].
    destruct a as [|y a]; cbn in *; [by rewrite Hk|].
    by rewrite Ha, Hk.
  - destruct fuel as [|fuel]; [cbn in Hfuel; lia|].
    cbn [app] in *. cbn [star_loop]. rewrite run_chr, Hc.
    assert (Hlt : (length (ws ++ a) <? length (c :: ws ++ a))%nat = true)
      by (apply Nat.ltb_lt; cbn; lia).
    rewrite Hlt. cbn [length] in Hfuel.
    rewrite (IH (c :: b) fuel); [done|lia| |done].
    cbn [rev] in Hk. by rewrite <- app_assoc in Hk.
Qed.

Lemma star_chr_inv p fuel b a cap k x :
  star_loop (run (Chr p)) fuel b a cap k = Some x ->
  ∃ ws a', a = ws ++ a' ∧ Forall (fun c => p c = true) ws
           ∧ k (rev ws ++ b) a' cap = Some x.
Proof.
  revert b a. induction fuel as [|fuel IH]; intros b a H; cbn [star_loop] in H.
  - by exists [], a.
  - destruct a as [|c a]; [by exists [], []|].
    rewrite run_chr in H.
    destruct (p c) eqn:Hc; [|by exists [], (c :: a)].
    destruct (length a <? length (c :: a))%nat; [|by exists [], (c :: a)].
    destruct (star_loop _ _ _ _ _ _) as [y|] eqn:E; [|by exists [], (c :: a)].
    injection H as ->. apply IH in E as (ws & a' & -> & Hws & Hk).
    exists (c :: ws), a'. split; [done|]. split; [by constructor|].
    cbn. by rewrite <- app_assoc.
Qed.

(** The group [([A-Za-z]{3})] and its like. *)
Lemma run_group3 p b a cap k :
  run (Group (Rep 3 (Chr p))) b a cap k
  = match a with
    | c1 :: c2 :: c3 :: a' =>
        if p c1 && p c2 && p c3
        then k (c3 :: c2 :: c1 :: b) a' (Some [c1; c2; c3])
        else None
    | _ => None
    end.
Proof.
  cbn. destruct a as [|c1 [|c2 [|c3 a']]]; try done.
  - by destruct (p c1).
  - by destruct (p c1), (p c2).
  - destruct (p c1), (p c2), (p c3); try done. cbn.
    replace (S (S (S (length b))) - length b)%nat with 3%nat by lia.
    done.
Qed.

(** [exec] reports the match at the leftmost position that has one. *)
Lemma exec_from_leftmost r pre b a cap :
  (∀ p1 p2, pre = p1 ++ p2 -> p2 ≠ [] ->
            match_here r (rev p1 ++ b) (p2 ++ a) = None) ->
  match_here r (rev pre ++ b) a = Some cap ->
  exec_from r b (pre ++ a) = Some cap.
Proof.
  revert b. induction pre as [|c pre IH]; intros b Hnone Hhere.
  - cbn in *. destruct a; cbn; by rewrite Hhere.
  - cbn [app exec_from].
    pose proof (Hnone [] (c :: pre) eq_refl ltac:(done)) as H0.
    cbn [rev app] in H0. rewrite H0.
    apply IH.
    + intros p1 p2 -> Hp2.
      specialize (Hnone (c :: p1) p2 eq_refl Hp2).
      cbn in Hnone. by rewrite <- app_assoc in Hnone.
    + cbn in Hhere. by rewrite <- app_assoc in Hhere.
Qed.

Lemma exec_from_inv r b a cap :
  exec_from r b a = Some cap ->
  ∃ p1 p2, a = p1 ++ p2 ∧ match_here r (rev p1 ++ b) p2 = Some cap.
Proof.
  revert b. induction a as [|c a IH]; intros b H; cbn in H.
  - destruct (match_here r b []) eqn:E; [|done].
    injection H as ->. by exists [], [].
  - destruct (match_here r b (c :: a)) eqn:E.
    + injection H as ->. by exists [], (c :: a).
    + apply IH in H as (p1 & p2 & -> & H).
      exists (c :: p1), p2. split; [done|]. cbn. by rewrite <- app_assoc.
Qed.

Lemma exec_from_some r pre b a cap :
  match_here r (rev pre ++ b) a = Some cap ->
  is_Some (exec_from r b (pre ++ a)).
Proof.
  revert b. induction pre as [|c pre IH]; intros b Hhere.
  - cbn in *. destruct a; cbn; rewrite Hhere; by eexists.
  - cbn [app exec_from].
    destruct (match_here r b (c :: pre ++ a)); [by eexists|].
    apply IH. cbn in Hhere. by rewrite <- app_assoc in Hhere.
Qed.
End Matcher.

(** ** The keyword patterns *)

Lemma run_cat r1 r2 b a cap k :
  run (Cat r1 r2) b a cap k = run r1 b a cap (fun b' a' cap' => run r2 b' a' cap' k).
Proof. reflexivity. Qed.

Lemma run_star r b a cap k :
  run (Star r) b a cap k = star_loop (run r) (length a) b a cap k.
Proof. reflexivity. Qed.

Lemma eq_i_fold_eq c x : Char.eq_i c x = true <-> fold_eq x c = true.
Proof.
  rewrite fold_eq_lower. unfold Char.eq_i. rewrite N.eqb_eq.
  unfold Char.upper, Char.lower, Char.is_upper, Char.is_lower.
  destruct (N.leb_spec 65 x), (N.leb_spec x 90), (N.leb_spec 97 x),
    (N.leb_spec x 122), (N.leb_spec 65 c), (N.leb_spec c 90),
    (N.leb_spec 97 c), (N.leb_spec c 122); cbn; lia.
Qed.

Lemma word_eq_i_ignore_case w kw :
  Forall2 (fun c x => Char.eq_i c x = true) w kw <-> eq_ignore_case kw w.
Proof.
  unfold eq_ignore_case.
  split; induction 1; constructor; try done; by apply eq_i_fold_eq.
Qed.

Lemma alpha_not_space c : Char.is_alpha c = true -> Char.is_space c = false.
Proof.
  unfold Char.is_alpha, Char.is_upper, Char.is_lower, Char.is_space.
  rewrite orb_true_iff, !andb_true_iff, !N.leb_le.
  intros H. repeat (apply orb_false_intro); rewrite ?andb_false_iff, ?N.leb_gt, ?N.eqb_neq; lia.
Qed.

Lemma match_here_keyword w b kw ws l rest :
  eq_ignore_case kw w -> ws ≠ [] -> spaces ws -> length l = 3%nat -> letters l ->
  match_here (keyword_re w) b (kw ++ ws ++ l ++ rest) = Some (Some l).
Proof.
  intros Hkw Hne Hws Hlen Hl. unfold match_here, keyword_re.
  rewrite run_cat, run_word by (by apply word_eq_i_ignore_case).
  unfold Plus. rewrite !run_cat.
  destruct ws as [|c ws]; [done|]. apply Forall_cons in Hws as [Hc Hws].
  cbn [app]. rewrite run_chr, Hc, run_star.
  destruct l as [|c1 [|c2 [|c3 [|? ?]]]]; try done.
  apply Forall_cons in Hl as [H1 Hl]. apply Forall_cons in Hl as [H2 Hl].
  apply Forall_cons in Hl as [H3 _].
  apply star_chr; [done|done| |].
  - rewrite run_group3. cbn [app]. by rewrite H1, H2, H3.
  - cbn. by apply alpha_not_space.
Qed.

Lemma match_here_keyword_inv w b a cap :
  match_here (keyword_re w) b a = Some cap ->
  ∃ kw ws l rest,
    a = kw ++ ws ++ l ++ rest ∧ eq_ignore_case kw w ∧ ws ≠ [] ∧ spaces ws
    ∧ length l = 3%nat ∧ letters l ∧ cap = Some l.
Proof.
  unfold match_here, keyword_re. rewrite run_cat.
  intros (kw & a1 & -> & Hkw%word_eq_i_ignore_case & H)%run_word_inv.
  unfold Plus in H. rewrite !run_cat in H.
  destruct a1 as [|c a1]; [done|]. rewrite run_chr in H.
  destruct (Char.is_space c) eqn:Hc; [|done].
  rewrite run_star in H.
  apply star_chr_inv in H as (ws & a2 & -> & Hws & H).
  rewrite run_group3 in H.
  destruct a2 as [|c1 [|c2 [|c3 rest]]]; try done.
  destruct (Char.is_alpha c1) eqn:H1, (Char.is_alpha c2) eqn:H2,
    (Char.is_alpha c3) eqn:H3; try done.
  cbn in H. injection H as <-.
  exists kw, (c :: ws), [c1; c2; c3], rest.
  repeat split; try done.
  - by constructor.
  - by repeat constructor.
Qed.

Lemma from_re_keyword : from_re = keyword_re (str "from").
Proof. reflexivity. Qed.

Lemma to_re_keyword : to_re = keyword_re (str "to").
Proof. reflexivity. Qed.

(** The leftmost occurrence of the keyword decides the capture. *)
Lemma match1_keyword_leftmost w pre s l :
  keyword_then_letters w pre s l ->
  (∀ pre' l', (length pre' < length pre)%nat -> ¬ keyword_then_letters w pre' s l') ->
  match1 (keyword_re w) s = Some l.
Proof.
  intros (kw & ws & rest & -> & Hkw & Hne & Hws & Hlen & Hl) Hleft.
  unfold match1.
  rewrite (exec_from_leftmost _ pre [] _ (Some l)); [done| |].
  - intros p1 p2 -> Hp2.
    destruct (match_here _ _ _) as [cap|] eqn:E; [exfalso|done].
    apply match_here_keyword_inv in E
      as (kw' & ws' & l' & rest' & E & Hkw' & Hne' & Hws' & Hlen' & Hl' & _).
    apply (Hleft p1 l').
    + rewrite length_app. destruct p2; [done|cbn; lia].
    + exists kw', ws', rest'. rewrite <- app_assoc, E. done.
  - by apply match_here_keyword.
Qed.

(** Wherever the keyword occurs, the capture is some three letters. *)
Lemma match1_keyword_some w pre s l :
  keyword_then_letters w pre s l ->
  ∃ l', match1 (keyword_re w) s = Some l' ∧ length l' = 3%nat ∧ letters l'.
Proof.
  intros (kw & ws & rest & -> & Hkw & Hne & Hws & Hlen & Hl).
  unfold match1.
  destruct (exec_from_some (keyword_re w) pre [] (kw ++ ws ++ l ++ rest) (Some l))
    as [cap E]; [by apply match_here_keyword|].
  rewrite E. apply exec_from_inv in E as (p1 & p2 & _ & E).
  apply match_here_keyword_inv in E as (_ & _ & l' & _ & _ & _ & _ & _ & ? & ? & ->).
  by exists l'.
Qed.

Lemma truthy_letters3 l : length l = 3%nat -> truthy (Some l) = true.
Proof. by destruct l. Qed.

Lemma extract_from_keyword q l :
  match1 from_re q = Some l -> length l = 3%nat ->
  extract_from q = Some (toUpperCase l).
Proof.
  intros H Hlen. unfold extract_from, or_else. by rewrite H, truthy_letters3.
Qed.

Lemma extract_to_keyword q l :
  match1 to_re q = Some l -> length l = 3%nat ->
  extract_to q = Some (toUpperCase l).
Proof.
  intros H Hlen. unfold extract_to, or_else. by rewrite H, truthy_letters3.
Qed.

Lemma keyword_then_letters_here w pre s l :
  keyword_then_letters w pre s l ->
  match_here (keyword_re w) (rev (take (length pre) s)) (drop (length pre) s)
  = Some (Some l).
Proof.
  intros (kw & ws & rest & -> & Hkw & Hne & Hws & Hlen & Hl).
  rewrite take_app_length, drop_app_length.
  rewrite <- (app_nil_r (rev pre)). by apply match_here_keyword.
Qed.

Lemma no_match_before_keyword w q n :
  no_match_before (keyword_re w) q n = true ->
  ∀ pre' l', (length pre' < n)%nat -> ¬ keyword_then_letters w pre' q l'.
Proof.
  intros H pre' l' Hlt Hocc%keyword_then_letters_here.
  unfold no_match_before in H. rewrite forallb_forall in H.
  specialize (H (length pre')). rewrite Hocc in H.
  assert (Hin : In (length pre') (seq 0 n)) by (apply in_seq; lia).
  apply H in Hin. apply negb_true_iff, bool_decide_eq_false in Hin.
  apply Hin. by eexists.
Qed.

Lemma prefix_three_letters w pre q kw ws tok rest :
  q = pre ++ kw ++ ws ++ tok ++ rest -> eq_ignore_case kw w ->
  ws ≠ [] -> spaces ws -> letters tok -> (3 < length tok)%nat ->
  keyword_then_letters w pre q (take 3 tok).
Proof.
  intros -> Hkw Hne Hws Htok Hlen.
  exists kw, ws, (drop 3 tok ++ rest).
  rewrite (app_assoc (take 3 tok)), take_drop.
  repeat split; try done.
  - rewrite length_take. lia.
  - by apply Forall_take.
Qed.

(** C10, as the code has it. When [from] (or [to]), in any letter case, is
    followed by whitespace and a run of more than three letters, the field
    is never left absent: it holds three upper-case letters. They are the
    first three letters of that run whenever no occurrence of the keyword
    followed by whitespace and three letters starts further left in the
    utterance. *)
Theorem prefix_of_leftmost_token (q pre kw ws tok rest : jsstring)
    (Hq : q = pre ++ kw ++ ws ++ tok ++ rest)
    (Hne : ws ≠ []) (Hws : spaces ws)
    (Htok : letters tok) (Hlen : (3 < length tok)%nat) :
  (eq_ignore_case kw (str "from") ->
     (∃ l, extract_from q = Some (toUpperCase l) ∧ length l = 3%nat ∧ letters l)
     ∧ ((∀ pre' l', (length pre' < length pre)%nat ->
                    ¬ keyword_then_letters (str "from") pre' q l') ->
        extract_from q = Some (toUpperCase (take 3 tok))))
  ∧ (eq_ignore_case kw (str "to") ->
     (∃ l, extract_to q = Some (toUpperCase l) ∧ length l = 3%nat ∧ letters l)
     ∧ ((∀ pre' l', (length pre' < length pre)%nat ->
                    ¬ keyword_then_letters (str "to") pre' q l') ->
        extract_to q = Some (toUpperCase (take 3 tok)))).
Proof.
  split; intros Hkw;
    pose proof (prefix_three_letters _ _ _ _ _ _ _ Hq Hkw Hne Hws Htok Hlen) as Hocc.
  - split.
    + destruct (match1_keyword_some _ _ _ _ Hocc) as (l & Hl & Hlen' & Hlet).
      exists l. by rewrite (extract_from_keyword q l).
    + intros Hleft. apply extract_from_keyword.
      * rewrite from_re_keyword. by eapply match1_keyword_leftmost.
      * rewrite length_take. lia.
  - split.
    + destruct (match1_keyword_some _ _ _ _ Hocc) as (l & Hl & Hlen' & Hlet).
      exists l. by rewrite (extract_to_keyword q l).
    + intros Hleft. apply extract_to_keyword.
      * rewrite to_re_keyword. by eapply match1_keyword_leftmost.
      * rewrite length_take. lia.
Qed.

Lemma prefix_of_leftmost_token_witness :
  extract_from (str "a trip from London to Paris") = Some (str "LON")
  ∧ extract_to (str "a trip from London to Paris") = Some (str "PAR").
Proof.
  split.
  - apply (prefix_of_leftmost_token (str "a trip from London to Paris")
             (str "a trip ") (str "from") (str " ") (str "London") (str " to Paris"));
      [reflexivity | discriminate | by repeat constructor | by repeat constructor
      | cbn; lia | apply eq_ignore_case_lower; reflexivity | ].
    apply no_match_before_keyword. vm_compute. reflexivity.
  - apply (prefix_of_leftmost_token (str "a trip from London to Paris")
             (str "a trip from London ") (str "to") (str " ") (str "Paris") []);
      [reflexivity | discriminate | by repeat constructor | by repeat constructor
      | cbn; lia | apply eq_ignore_case_lower; reflexivity | ].
    apply no_match_before_keyword. vm_compute. reflexivity.
Defined.

(** Read over every occurrence of the keyword, the property fails: the
    first occurrence wins. Here the second [from] is followed by
    [London], and the field is [ABC]. *)
Lemma first_match_wins :
  let q := str "from abc from London" in
  q = str "from abc " ++ str "from" ++ str " " ++ str "London" ++ []
  ∧ eq_ignore_case (str "from") (str "from")
  ∧ spaces (str " ") ∧ letters (str "London") ∧ (3 < length (str "London"))%nat
  ∧ extract_from q = Some (str "ABC")
  ∧ extract_from q ≠ Some (toUpperCase (take 3 (str "London"))).
Proof.
  cbn zeta. repeat split; try reflexivity; try discriminate.
  - apply eq_ignore_case_lower. reflexivity.
  - by repeat constructor.
  - by repeat constructor.
  - cbn. lia.
Qed.

(** ** Memory: the sticky merge *)

(** C2. Sticky merge: each sub-field of the merged [lastQuery] is the new
    query's when the new query has it and Memory's own otherwise, so a
    sub-field the new query leaves out is never erased; and this merge is
    what a text turn stores in Memory. *)
Theorem sticky_merge (m : Memory) (q : Query.t) :
  let merged := mergeQuery m q in
  Query.from merged
    = match Query.from q with Some x => Some x | None => lastQuery m ≫= Query.from end
  ∧ Query.to merged
    = match Query.to q with Some x => Some x | None => lastQuery m ≫= Query.to end
  ∧ Query.date merged
    = match Query.date q with Some x => Some x | None => lastQuery m ≫= Query.date end
  ∧ (∀ x, lastQuery m ≫= Query.from = Some x -> Query.from q = None ->
          Query.from merged = Some x)
  ∧ (∀ x, lastQuery m ≫= Query.to = Some x -> Query.to q = None ->
          Query.to merged = Some x)
  ∧ (∀ x, lastQuery m ≫= Query.date = Some x -> Query.date q = None ->
          Query.date merged = Some x)
  ∧ (∀ upperCase flightsData hotelsData now st,
       memory st = m -> trim (input st) ≠ [] ->
       extract (trim (input st)) = q ->
       lastQuery (memory (handleSubmit upperCase flightsData hotelsData now st))
       = Some merged).
Proof.
  cbn zeta. repeat split.
  - intros x Hm Hq. unfold mergeQuery; cbn. by rewrite Hq.
  - intros x Hm Hq. unfold mergeQuery; cbn. by rewrite Hq.
  - intros x Hm Hq. unfold mergeQuery; cbn. by rewrite Hq.
  - intros up fd hd now st <- Hne <-. by apply handleSubmit_lastQuery.
Qed.

(** A second turn that names only a date keeps the origin and the
    destination of the first. *)
Lemma sticky_merge_witness :
  let st1 := Sample.submit "flights from NYC to LAX" (initialState Sample.memory0) in
  let st2 := Sample.submit "make it 2025-11-10" st1 in
  lastQuery (memory st2)
  = Some {| Query.from := Some (str "NYC"); Query.to := Some (str "LAX");
            Query.date := Some (str "2025-11-10") |}.
Proof.
  cbn zeta.
  set (st1 := Sample.submit "flights from NYC to LAX" (initialState Sample.memory0)).
  destruct (sticky_merge (memory st1) (extract (str "make it 2025-11-10")))
    as (_ & _ & _ & _ & _ & _ & H).
  unfold Sample.submit at 1.
  rewrite (H Sample.upperCase Sample.flightsData Sample.hotelsData Sample.now
             (setInput (str "make it 2025-11-10") st1));
    [reflexivity | reflexivity | discriminate | reflexivity].
Defined.

(** ** The destination of a hotel search *)

Lemma match1_to_arrow_letters q l :
  match1 to_arrow_re q = Some l -> length l = 3%nat.
Proof.
  unfold match1. destruct (exec_from to_arrow_re [] q) as [cap|] eqn:E; [|done].
  intros ->. apply exec_from_inv in E as (p1 & p2 & _ & E).
  unfold match_here, to_arrow_re in E. rewrite run_cat in E.
  apply run_word_inv in E as (kw & a1 & _ & _ & E).
  rewrite run_cat, run_star in E.
  apply star_chr_inv in E as (ws & a2 & _ & _ & E).
  rewrite run_group3 in E.
  destruct a2 as [|c1 [|c2 [|c3 rest]]]; try done.
  destruct (_ && _ && _); [|done]. by injection E as <-.
Qed.

Lemma extract_to_nonempty q city : extract_to q = Some city -> city ≠ [].
Proof.
  unfold extract_to, or_else.
  destruct (match1 to_re q) as [[|c l]|] eqn:E1; cbn [truthy].
  - destruct (match1 to_arrow_re q) as [l|] eqn:E2; [|done].
    apply match1_to_arrow_letters in E2. cbn. intros [= <-]. by destruct l.
  - by intros [= <-].
  - destruct (match1 to_arrow_re q) as [l|] eqn:E2; [|done].
    apply match1_to_arrow_letters in E2. cbn. intros [= <-]. by destruct l.
Qed.

Lemma hotelCity_merged st q city :
  needsHotel q (flights st) = true ->
  nullish (extract_to q) (lastQuery (memory st) ≫= Query.to) = Some city ->
  city ≠ [] -> hotelCity st q = Some city.
Proof.
  intros Hneeds Hto Hne. unfold hotelCity, arrivalCity. rewrite Hneeds.
  cbn [newMemory with_lastQuery lastQuery mbind option_bind mergeQuery Query.to extract].
  rewrite Hto. by destruct city.
Qed.

(** C3, as the code has it. When a text turn requires a hotel, the city is
    the destination of the merged query: the one the utterance names, and
    otherwise the one Memory remembers. Only when there is neither, and the
    turn runs no flight search of its own, is it the destination of the
    top-ranked held flight. With no destination in the utterance or in
    Memory and no flight in either the held list or this turn's result,
    the turn returns with no hotel request, no hotel message, and the
    hotel list and flag untouched. *)
Theorem hotel_destination_priority (upperCase : jsstring -> jsstring)
    (flightsData : list Flight.t)
    (hotelsData : list Hotel.t) (now : nat -> N) (st : State) (q : jsstring)
    (Hq : trim (input st) = q) (Hne : q ≠ []) :
  let st' := handleSubmit upperCase flightsData hotelsData now st in
  let remembered := lastQuery (memory st) ≫= Query.to in
  (∀ city, needsHotel q (flights st) = true -> extract_to q = Some city ->
           hotelSearchFor upperCase hotelsData city st st')
  ∧ (∀ city, needsHotel q (flights st) = true -> extract_to q = None ->
             remembered = Some city -> city ≠ [] ->
             hotelSearchFor upperCase hotelsData city st st')
  ∧ (∀ f held, needsHotel q (flights st) = true -> extract_to q = None ->
               remembered = None -> flights st = f :: held ->
               searchesFlights q (flights st) = false -> Flight.to f ≠ [] ->
               hotelSearchFor upperCase hotelsData (Flight.to f) st st')
  ∧ (extract_to q = None -> remembered = None -> flights st = [] ->
     flights st' = [] -> noHotelSearch st st').
Proof.
  cbn zeta. split; [|split; [|split]].
  - intros city Hneeds Hto. apply (turn_hotel_search _ _ _ _ st q); try done.
    apply hotelCity_merged; [done|by rewrite Hto|by eapply extract_to_nonempty].
  - intros city Hneeds Hto Hmem Hcity. apply (turn_hotel_search _ _ _ _ st q); try done.
    apply hotelCity_merged; [done|by rewrite Hto|done].
  - intros f held Hneeds Hto Hmem Hheld _ Hcity.
    apply (turn_hotel_search _ _ _ _ st q); try done.
    unfold hotelCity, arrivalCity. rewrite Hneeds.
    cbn [newMemory with_lastQuery lastQuery mbind option_bind mergeQuery Query.to extract].
    rewrite Hto, Hheld. cbn [nullish]. rewrite Hmem. cbn.
    by destruct (Flight.to f).
  - intros Hto Hmem Hheld _. apply (turn_no_hotel_search _ _ _ _ st q); try done.
    unfold hotelCity, arrivalCity.
    cbn [newMemory with_lastQuery lastQuery mbind option_bind mergeQuery Query.to extract].
    rewrite Hto, Hheld. cbn [nullish]. rewrite Hmem. cbn.
    by destruct (needsHotel _ _).
Qed.

Lemma hotel_destination_priority_witness :
  let st1 := Sample.submit "to SEA" (initialState Sample.memory0) in
  let st2 := Sample.submit "need a hotel" st1 in
  hotelSearchFor Sample.upperCase Sample.hotelsData (str "SEA") st1 st2.
Proof.
  cbn zeta.
  set (st1 := Sample.submit "to SEA" (initialState Sample.memory0)).
  destruct (hotel_destination_priority Sample.upperCase Sample.flightsData Sample.hotelsData
              Sample.now (setInput (str "need a hotel") st1) (str "need a hotel"))
    as (_ & H & _); [reflexivity | discriminate |].
  apply (H (str "SEA")); [reflexivity | reflexivity | reflexivity | discriminate].
Defined.

(** The specification names two sources for the city. Here the utterance
    names no destination, and neither the held flight list nor this turn's
    search has a flight, yet the turn searches hotels in the city that
    Memory kept from the turn before. *)
Lemma remembered_destination_used :
  let st1 := Sample.submit "to SEA" (initialState Sample.memory0) in
  let st2 := Sample.submit "need a hotel" st1 in
  extract_to (str "need a hotel") = None
  ∧ flights st1 = [] ∧ flights st2 = []
  ∧ last (requests st2) = Some (GetHotels (str "SEA") 4)
  ∧ last (transcript st2) = Some (agent, hotelRequiredIn (str "SEA"))
  ∧ hotelRequired (memory st2) = Some true.
Proof. vm_compute. repeat split; reflexivity. Qed.

(** ** The worked scenario *)

Lemma scenario_extract : extract scenario_utterance = scenario_triple.
Proof. vm_compute. reflexivity. Qed.

Lemma scenario_merge m : mergeQuery m scenario_triple = scenario_triple.
Proof. reflexivity. Qed.

Lemma scenario_searches held : searchesFlights scenario_utterance held = true.
Proof.
  unfold searchesFlights.
  replace (extract_from scenario_utterance) with (Some (str "NYC"))
    by (vm_compute; reflexivity).
  reflexivity.
Qed.

(** C8. The utterance ["flights from NYC to LAX on 2025-11-10"] yields
    exactly from NYC, to LAX, date 2025-11-10, and the turn sends one
    flight search, with exactly this triple as its parameters, and stores
    the ranking of what the route returns for it; this for every state
    the turn starts from, persona Business included. *)
Theorem scenario_nyc_lax (upperCase : jsstring -> jsstring)
    (flightsData : list Flight.t) (hotelsData : list Hotel.t)
    (now : nat -> N) (st : State) :
  let st' := handleSubmit upperCase flightsData hotelsData now (setInput scenario_utterance st) in
  extract scenario_utterance = scenario_triple
  ∧ (∃ rest, requests st' = requests st ++ GetFlights scenario_triple :: rest
             ∧ ∀ q, ¬ In (GetFlights q) rest)
  ∧ flights st' = rankFlights (persona (memory st))
                    (Api.flights upperCase flightsData scenario_triple)
  ∧ lastQuery (memory st') = Some scenario_triple.
Proof.
  cbn zeta.
  assert (Hq : trim (input (setInput scenario_utterance st)) = scenario_utterance)
    by reflexivity.
  assert (Hne : scenario_utterance ≠ []) by discriminate.
  split; [apply scenario_extract|]. split; [|split].
  - rewrite (handleSubmit_requests _ _ _ _ _ _ Hq Hne).
    cbn [flights requests memory setInput].
    rewrite scenario_searches, scenario_extract, scenario_merge.
    eexists. split; [reflexivity|].
    intros q. destruct (hotelCity _ _); cbn; [|tauto].
    intros [H|[]]. discriminate.
  - rewrite (handleSubmit_flights _ _ _ _ _ _ Hq Hne).
    cbn [flights requests memory setInput].
    by rewrite scenario_searches, scenario_extract, scenario_merge.
  - rewrite handleSubmit_lastQuery by (rewrite Hq; exact Hne).
    rewrite Hq. cbn [flights requests memory setInput].
    by rewrite scenario_extract, scenario_merge.
Qed.

(** ** The hotel requirement of a text turn *)

(** C1 at a failing input. In a fresh session the turn ["fly from NYC to
    LHR"] finds one flight, overnight, which is therefore top-ranked; the
    utterance names no hotel keyword. [needsHotel] reads the list the
    handler closed over, which is still empty, so no hotel search is made.
    On the next turn, ["fly from NYC to LAX"], the top-ranked flight found is
    not overnight and no hotel is mentioned, but the list closed over is now
    the previous one, and a hotel search is made. *)
Lemma overnight_read_from_held_list :
  let st0 := initialState Sample.memory0 in
  let st1 := Sample.submit "fly from NYC to LHR" st0 in
  let st2 := Sample.submit "fly from NYC to LAX" st1 in
  (mentionsHotel (str "fly from NYC to LHR") = false
   ∧ Flight.overnight <$> head (flights st1) = Some true
   ∧ needsHotel (str "fly from NYC to LHR") (flights st0) = false
   ∧ noHotelSearch st0 st1)
  ∧ (mentionsHotel (str "fly from NYC to LAX") = false
     ∧ Flight.overnight <$> head (flights st2) = Some false
     ∧ needsHotel (str "fly from NYC to LAX") (flights st1) = true
     ∧ hotelSearchFor Sample.upperCase Sample.hotelsData (str "LAX") st1 st2).
Proof.
  cbn zeta. split.
  - split; [vm_compute; reflexivity|]. split; [vm_compute; reflexivity|].
    split; [vm_compute; reflexivity|].
    apply (turn_no_hotel_search Sample.upperCase Sample.flightsData Sample.hotelsData Sample.now
             (setInput (str "fly from NYC to LHR") (initialState Sample.memory0))
             (str "fly from NYC to LHR"));
      [reflexivity | discriminate | vm_compute; reflexivity].
  - split; [vm_compute; reflexivity|]. split; [vm_compute; reflexivity|].
    split; [vm_compute; reflexivity|].
    apply (turn_hotel_search Sample.upperCase Sample.flightsData Sample.hotelsData Sample.now
             (setInput (str "fly from NYC to LAX")
                (Sample.submit "fly from NYC to LHR" (initialState Sample.memory0)))
             (str "fly from NYC to LAX"));
      [reflexivity | discriminate | vm_compute; reflexivity].
Qed.

(** * More of the component *)

(** ** Blank input *)

Lemma dropWhile_spaces s : spaces s -> dropWhile Char.is_space s = [].
Proof. induction 1 as [|c s Hc _ IH]; cbn; [done|]. by rewrite Hc. Qed.

Lemma trim_spaces s : spaces s -> trim s = [].
Proof. intros H. unfold trim. by rewrite (dropWhile_spaces s H). Qed.

(** X1. Submitting an input that is empty or all whitespace does nothing:
    no message, no search, Memory and the input field as they were. *)
Theorem blank_submit_ignored (upperCase : jsstring -> jsstring)
    (flightsData : list Flight.t)
    (hotelsData : list Hotel.t) (now : nat -> N) (st : State)
    (Hblank : spaces (input st)) :
  handleSubmit upperCase flightsData hotelsData now st = st.
Proof. apply handleSubmit_empty. by apply trim_spaces. Qed.

Lemma blank_submit_ignored_witness :
  let st := setInput (str "  ")
              (Sample.submit "flights from NYC to LAX" (initialState Sample.memory0)) in
  handleSubmit Sample.upperCase Sample.flightsData Sample.hotelsData Sample.now st = st.
Proof.
  apply blank_submit_ignored. by repeat constructor.
Defined.

(** ** What a text turn leaves alone *)

(** X2. A turn with a non-blank input clears the input field, appends the
    trimmed text as one user message followed by at most two agent
    messages, never changes the persona or the chosen flight, and either
    keeps [hotelRequired] or sets it to true. *)
Theorem text_turn_frame (upperCase : jsstring -> jsstring)
    (flightsData : list Flight.t) (hotelsData : list Hotel.t)
    (now : nat -> N) (st : State) (Hq : trim (input st) ≠ []) :
  let st' := handleSubmit upperCase flightsData hotelsData now st in
  input st' = []
  ∧ persona (memory st') = persona (memory st)
  ∧ chosenFlightId (memory st') = chosenFlightId (memory st)
  ∧ (hotelRequired (memory st') = hotelRequired (memory st)
     ∨ hotelRequired (memory st') = Some true)
  ∧ ∃ replies,
      transcript st' = transcript st ++ (user, trim (input st)) :: replies
      ∧ Forall (fun m => fst m = agent) replies ∧ (length replies <= 2)%nat.
Proof.
  cbn zeta.
  rewrite (handleSubmit_memory _ _ _ _ st _ eq_refl Hq),
    (handleSubmit_transcript _ _ _ _ st _ eq_refl Hq).
  split; [|split; [|split; [|split]]].
  - unfold handleSubmit.
    destruct (trim (input st)) as [|c q] eqn:E; [done|].
    cbv beta iota zeta.
    destruct (searchesFlights _ _); destruct (needsHotel _ _);
      try destruct (arrivalCity _ _); reflexivity.
  - by destruct (hotelCity _ _).
  - by destruct (hotelCity _ _).
  - destruct (hotelCity _ _); [by right | by left].
  - eexists. split; [reflexivity|].
    destruct (searchesFlights _ _), (hotelCity _ _); cbn;
      split; try lia; by repeat constructor.
Qed.

Lemma text_turn_frame_witness :
  let st := setInput (str " need a hotel in to LAX ") (initialState Sample.memory0) in
  let st' := handleSubmit Sample.upperCase Sample.flightsData Sample.hotelsData Sample.now st in
  input st' = [] ∧ persona (memory st') = Business.
Proof.
  cbn zeta.
  destruct (text_turn_frame Sample.upperCase Sample.flightsData Sample.hotelsData Sample.now
              (setInput (str " need a hotel in to LAX ") (initialState Sample.memory0)))
    as (H1 & H2 & _); [vm_compute; discriminate|].
  split; [exact H1 | exact H2].
Defined.

(** ** What the extractor returns *)

Lemma upper_letter c : Char.is_alpha c = true -> Char.is_upper (Char.upper c) = true.
Proof.
  unfold Char.is_alpha, Char.upper. intros H.
  destruct (Char.is_lower c) eqn:E.
  - unfold Char.is_lower in E. unfold Char.is_upper.
    apply andb_true_iff in E as [E1%N.leb_le E2%N.leb_le].
    apply andb_true_iff; split; apply N.leb_le; lia.
  - by rewrite orb_false_r in H.
Qed.

Lemma toUpperCase_code l :
  length l = 3%nat -> letters l -> airport_code (toUpperCase l).
Proof.
  intros Hlen Hl. unfold toUpperCase.
  split; [by rewrite List.length_map|].
  apply List.Forall_map.
  eapply List.Forall_impl; [|exact Hl]. apply upper_letter.
Qed.

Lemma match1_keyword_letters w q l :
  match1 (keyword_re w) q = Some l -> length l = 3%nat ∧ letters l.
Proof.
  unfold match1. destruct (exec_from _ [] q) as [cap|] eqn:E; [|done].
  intros ->. apply exec_from_inv in E as (p1 & p2 & _ & E).
  by apply match_here_keyword_inv in E as (_ & _ & l' & _ & _ & _ & _ & _ & ? & ? & [= ->]).
Qed.

Lemma run_wordb b a cap k :
  run WordB b a cap k
  = if xorb (word_at (head b)) (word_at (head a)) then k b a cap else None.
Proof. reflexivity. Qed.

Lemma match1_to_arrow_code q l :
  match1 to_arrow_re q = Some l -> length l = 3%nat ∧ letters l.
Proof.
  unfold match1. destruct (exec_from to_arrow_re [] q) as [cap|] eqn:E; [|done].
  intros ->. apply exec_from_inv in E as (p1 & p2 & _ & E).
  unfold match_here, to_arrow_re in E. rewrite run_cat in E.
  apply run_word_inv in E as (kw & a1 & _ & _ & E).
  rewrite run_cat, run_star in E.
  apply star_chr_inv in E as (ws & a2 & _ & _ & E).
  rewrite run_group3 in E.
  destruct a2 as [|c1 [|c2 [|c3 rest]]]; try done.
  destruct (Char.is_alpha c1) eqn:H1, (Char.is_alpha c2) eqn:H2,
    (Char.is_alpha c3) eqn:H3; try done.
  cbn in E. injection E as <-. split; [done|]. by repeat constructor.
Qed.

Lemma match1_from_arrow_code q l :
  match1 from_arrow_re q = Some l -> length l = 3%nat ∧ letters l.
Proof.
  unfold match1. destruct (exec_from from_arrow_re [] q) as [cap|] eqn:E; [|done].
  intros ->. apply exec_from_inv in E as (p1 & p2 & _ & E).
  unfold match_here, from_arrow_re in E. rewrite run_cat, run_wordb in E.
  destruct (xorb _ _); [|done].
  rewrite run_cat, run_group3 in E.
  destruct p2 as [|c1 [|c2 [|c3 rest]]]; try done.
  destruct (Char.is_alpha c1) eqn:H1, (Char.is_alpha c2) eqn:H2,
    (Char.is_alpha c3) eqn:H3; try done.
  cbn [andb] in E. rewrite run_cat, run_star in E.
  apply star_chr_inv in E as (ws & a2 & _ & _ & E).
  apply run_word_inv in E as (kw & a3 & _ & _ & E).
  injection E as <-. split; [done|]. by repeat constructor.
Qed.

Lemma or_else_code a b l :
  (∀ x, a = Some x -> length x = 3%nat ∧ letters x) ->
  (∀ x, b = Some x -> length x = 3%nat ∧ letters x) ->
  toUpperCase <$> or_else a b = Some l -> airport_code l.
Proof.
  intros Ha Hb. unfold or_else.
  destruct (truthy a).
  - destruct a as [x|]; [|done]. intros [= <-].
    by apply toUpperCase_code; apply (Ha x).
  - destruct b as [x|]; [|done]. intros [= <-].
    by apply toUpperCase_code; apply (Hb x).
Qed.

Lemma extract_from_code q c : extract_from q = Some c -> airport_code c.
Proof.
  apply or_else_code.
  - intros x. rewrite from_re_keyword. apply match1_keyword_letters.
  - apply match1_from_arrow_code.
Qed.

Lemma extract_to_code q c : extract_to q = Some c -> airport_code c.
Proof.
  apply or_else_code.
  - intros x. rewrite to_re_keyword. apply match1_keyword_letters.
  - apply match1_to_arrow_code.
Qed.

(** X3. Whatever the utterance, an origin or a destination that the
    extractor returns is exactly three letters [A]-[Z]. *)
Theorem extracted_codes (q : jsstring) :
  (∀ c, extract_from q = Some c -> airport_code c)
  ∧ (∀ c, extract_to q = Some c -> airport_code c).
Proof. split; intros c; [apply extract_from_code | apply extract_to_code]. Qed.

Lemma run_group r b a cap k :
  run (Group r) b a cap k
  = run r b a cap (fun b' a' _ =>
      k b' a' (Some (rev (take (length b' - length b) b')))).
Proof. reflexivity. Qed.

Lemma match_here_date b a cap :
  match_here date_re b a = Some cap ->
  ∃ d rest, a = d ++ rest ∧ cap = Some d ∧ date_shaped d.
Proof.
  unfold match_here, date_re. rewrite run_group.
  set (k := fun (b' a' : list N) (_ : option jsstring) => _).
  intros H.
  destruct a as [|y1 [|y2 [|y3 [|y4 [|h1 [|m1 [|m2 [|h2 [|d1 [|d2 rest]]]]]]]]]];
    cbn [run Rep] in H;
    repeat (match type of H with
            | context [if ?c then _ else _] => destruct c eqn:?
            end); try discriminate.
  unfold k in H.
  replace (length (d2 :: d1 :: h2 :: m2 :: m1 :: h1 :: y4 :: y3 :: y2 :: y1 :: b)
           - length b)%nat with 10%nat in H by (cbn [length]; lia).
  cbn in H. injection H as <-.
  repeat match goal with
         | E : Char.eq 45 _ = true |- _ => apply N.eqb_eq in E; subst
         end.
  eexists _, rest. split; [|split; [reflexivity|]].
  - reflexivity.
  - exists y1, y2, y3, y4, m1, m2, d1, d2. split; [done|].
    by repeat constructor.
Qed.

Lemma extract_date_shape q d :
  extract_date q = Some d -> date_shaped d ∧ ∃ pre post, q = pre ++ d ++ post.
Proof.
  unfold extract_date, match1. intros Hd.
  destruct (exec_from date_re [] q) as [cap|] eqn:E; [|done]. subst cap.
  apply exec_from_inv in E as (p1 & p2 & -> & E).
  apply match_here_date in E as (d' & rest & -> & [= <-] & Hshape).
  split; [done|]. by exists p1, rest.
Qed.

(** X4. A date that the extractor returns is a piece of the utterance of
    the shape [dddd-dd-dd]: ten characters, digits around two hyphens. No
    calendar check is made. *)
Theorem extracted_date (q d : jsstring) (Hd : extract_date q = Some d) :
  date_shaped d ∧ ∃ pre post, q = pre ++ d ++ post.
Proof. by apply extract_date_shape. Qed.

Lemma extracted_date_witness :
  date_shaped (str "2025-13-45")
  ∧ ∃ pre post, str "leaving 2025-13-45, back 2026-01-02" = pre ++ str "2025-13-45" ++ post.
Proof.
  apply (extracted_date (str "leaving 2025-13-45, back 2026-01-02")).
  vm_compute. reflexivity.
Defined.

(** ** Hotel keywords *)

Lemma test_iff r q :
  test r q = true <-> ∃ p1 p2, q = p1 ++ p2 ∧ is_Some (match_here r (rev p1) p2).
Proof.
  unfold test. split.
  - destruct (exec_from r [] q) as [cap|] eqn:E; [|done]. intros _.
    apply exec_from_inv in E as (p1 & p2 & -> & E).
    rewrite app_nil_r in E. exists p1, p2. split; [done|]. by eexists.
  - intros (p1 & p2 & -> & [cap E]).
    destruct (exec_from_some r p1 [] p2 cap) as [x Hx]; [by rewrite app_nil_r|].
    by rewrite Hx.
Qed.

Lemma match_here_word w b a :
  is_Some (match_here (word Char.eq_i w) b a)
  <-> ∃ kw rest, a = kw ++ rest ∧ eq_ignore_case kw w.
Proof.
  unfold match_here. split.
  - intros [x (kw & rest & -> & Hkw & _)%run_word_inv].
    exists kw, rest. split; [done|]. by apply word_eq_i_ignore_case.
  - intros (kw & rest & -> & Hkw%word_eq_i_ignore_case).
    rewrite run_word by done. by eexists.
Qed.

Lemma match_here_alt r1 r2 b a :
  is_Some (match_here (Alt r1 r2) b a)
  <-> is_Some (match_here r1 b a) ∨ is_Some (match_here r2 b a).
Proof.
  unfold match_here. cbn [run].
  destruct (run r1 b a None _) as [x|].
  - split; [left|]; by eexists.
  - split; [by right|]. by intros [[? [=]]|?].
Qed.

Lemma test_word_iff w q :
  (∃ p1 p2, q = p1 ++ p2 ∧ is_Some (match_here (word Char.eq_i (str w)) (rev p1) p2))
  <-> contains_word q w.
Proof.
  unfold contains_word. split.
  - intros (p1 & p2 & -> & (kw & rest & -> & Hkw)%match_here_word).
    by exists p1, kw, rest.
  - intros (pre & kw & post & -> & Hkw).
    exists pre, (kw ++ post). split; [done|].
    apply match_here_word. by exists kw, post.
Qed.

Lemma overnight_contains_night q : contains_word q "overnight" -> contains_word q "night".
Proof.
  intros (pre & kw & post & -> & Hkw).
  change (str "overnight") with (str "over" ++ str "night") in Hkw.
  apply Forall2_app_inv_r in Hkw as (k1 & k2 & _ & Hk2 & ->).
  exists (pre ++ k1), k2, post. split; [by rewrite <- !app_assoc|done].
Qed.

(** X5. An utterance mentions a hotel exactly when it contains [hotel],
    [stay] or [night] somewhere, in any letter case and also inside a longer
    word; the fourth alternative of the pattern, [overnight], adds
    nothing. *)
Theorem mentionsHotel_iff (q : jsstring) :
  mentionsHotel q = true
  <-> contains_word q "hotel" ∨ contains_word q "stay" ∨ contains_word q "night".
Proof.
  unfold mentionsHotel. rewrite test_iff. unfold hotel_re.
  split.
  - intros (p1 & p2 & -> & H).
    apply match_here_alt in H as [H|H]; [left|].
    { apply test_word_iff. by exists p1, p2. }
    apply match_here_alt in H as [H|H]; [right; left|].
    { apply test_word_iff. by exists p1, p2. }
    right; right.
    apply match_here_alt in H as [H|H].
    + apply test_word_iff. by exists p1, p2.
    + apply overnight_contains_night, test_word_iff. by exists p1, p2.
  - intros [H|[H|H]]; apply test_word_iff in H as (p1 & p2 & -> & H);
      exists p1, p2; (split; [done|]); rewrite !match_here_alt; tauto.
Qed.

(** ** The routes *)

Lemma sublist_List_filter {A} (p : A -> bool) (l : list A) :
  sublist (List.filter p l) l.
Proof.
  induction l as [|x l IH]; cbn; [constructor|].
  destruct (p x); by constructor.
Qed.

Lemma param_filter_sublist {A} (get : A -> jsstring) (param : option jsstring)
    (l : list A) :
  sublist (if truthy param
           then List.filter (fun a => jsstring_eqb (get a) (default [] param)) l
           else l) l.
Proof. destruct (truthy param); [apply sublist_List_filter|done]. Qed.

Lemma param_filter_In {A} (get : A -> jsstring) (param : option jsstring)
    (l : list A) (a : A) :
  In a (if truthy param
        then List.filter (fun a => jsstring_eqb (get a) (default [] param)) l
        else l)
  <-> In a l ∧ (∀ x, param = Some x -> x ≠ [] -> get a = x).
Proof.
  destruct param as [[|c x]|]; cbn [truthy].
  - split; [intros H; split; [done|]; by intros x [= <-] | tauto].
  - rewrite List.filter_In. unfold jsstring_eqb. rewrite bool_decide_eq_true.
    cbn. split.
    + intros [H1 H2]. split; [done|]. by intros y [= <-] _.
    + intros [H1 H2]. split; [done|]. by apply H2.
  - split; [intros H; split; [done|]; by intros x [=] | tauto].
Qed.

Lemma upper_param (upperCase : jsstring -> jsstring) (param : option jsstring)
    (P : jsstring -> Prop) :
  (∀ y, upperCase <$> param = Some y -> y ≠ [] -> P y)
  <-> (∀ x, param = Some x -> upperCase x ≠ [] -> P (upperCase x)).
Proof.
  destruct param as [x|]; cbn; [|by split; intros _ ? [=]].
  split.
  - intros H y [= <-] Hne. by apply H.
  - intros H y [= <-] Hne. by apply H.
Qed.

Lemma Api_flights_iff (upperCase : jsstring -> jsstring) (data : list Flight.t)
    (q : Query.t) (f : Flight.t) :
  In f (Api.flights upperCase data q)
  <-> In f data
      ∧ (∀ x, Query.from q = Some x -> upperCase x ≠ [] ->
              Flight.from f = upperCase x)
      ∧ (∀ x, Query.to q = Some x -> upperCase x ≠ [] ->
              Flight.to f = upperCase x)
      ∧ (∀ x, Query.date q = Some x -> x ≠ [] -> Flight.date f = x).
Proof.
  unfold Api.flights. cbv zeta.
  rewrite (param_filter_In Flight.date), (param_filter_In Flight.to),
    (param_filter_In Flight.from).
  rewrite (upper_param upperCase (Query.from q) (fun y => Flight.from f = y)),
    (upper_param upperCase (Query.to q) (fun y => Flight.to f = y)).
  tauto.
Qed.

(** X6. The flights route returns the data rows, in data order, that agree
    with every parameter it filters on: the origin and the destination are
    compared with the upper-cased parameter, when the parameter is present
    and its upper-casing is not empty, the date with the parameter as sent,
    when present and not empty. Everything else filters nothing. This for
    whatever [String.prototype.toUpperCase] does to the text. *)
Theorem flights_route (upperCase : jsstring -> jsstring) (data : list Flight.t)
    (q : Query.t) :
  sublist (Api.flights upperCase data q) data
  ∧ ∀ f, In f (Api.flights upperCase data q)
         <-> In f data
             ∧ (∀ x, Query.from q = Some x -> upperCase x ≠ [] ->
                     Flight.from f = upperCase x)
             ∧ (∀ x, Query.to q = Some x -> upperCase x ≠ [] ->
                     Flight.to f = upperCase x)
             ∧ (∀ x, Query.date q = Some x -> x ≠ [] -> Flight.date f = x).
Proof.
  split; [|apply Api_flights_iff].
  unfold Api.flights. cbv zeta.
  etransitivity; [apply (param_filter_sublist Flight.date)|].
  etransitivity; [apply (param_filter_sublist Flight.to)|].
  apply (param_filter_sublist Flight.from).
Qed.

Lemma flights_route_all upperCase (data : list Flight.t) (q : Query.t) :
  truthy (Query.from q) = false -> truthy (Query.to q) = false ->
  truthy (Query.date q) = false -> Api.flights upperCase data (queryString q) = data.
Proof.
  intros H1 H2 H3. unfold Api.flights, queryString, sent. cbn.
  by rewrite H1, H2, H3.
Qed.

(** X7. A first turn that names no origin, destination or date, in a
    session that holds no flights and remembers no query, asks the route
    for everything and lists every flight of the data, ranked. *)
Theorem first_turn_lists_everything (upperCase : jsstring -> jsstring)
    (flightsData : list Flight.t)
    (hotelsData : list Hotel.t) (now : nat -> N) (st : State) (q : jsstring)
    (Hq : trim (input st) = q) (Hne : q ≠ [])
    (Hnothing : extract q = Query.empty)
    (Hheld : flights st = []) (Hmem : lastQuery (memory st) = None) :
  let st' := handleSubmit upperCase flightsData hotelsData now st in
  flights st' = rankFlights (persona (memory st)) flightsData
  ∧ Permutation flightsData (flights st')
  ∧ ∃ rest, requests st' = requests st ++ GetFlights Query.empty :: rest.
Proof.
  cbn zeta.
  assert (Hs : searchesFlights q (flights st) = true).
  { unfold searchesFlights. rewrite Hheld. cbn. by rewrite !orb_true_r. }
  assert (Hm : mergeQuery (memory st) (extract q) = Query.empty).
  { unfold mergeQuery. by rewrite Hnothing, Hmem. }
  rewrite (handleSubmit_flights _ _ _ _ st q Hq Hne),
    (handleSubmit_requests _ _ _ _ st q Hq Hne), Hs, Hm.
  change (queryString Query.empty) with Query.empty.
  change (Api.flights upperCase flightsData Query.empty) with flightsData.
  split; [done|]. split; [apply sort_perm|]. by eexists.
Qed.

Lemma first_turn_lists_everything_witness :
  let st' := Sample.submit "hello there" (initialState Sample.memory0) in
  List.map Flight.id (flights st') = [str "F2"; str "F4"; str "F1"; str "F3"].
Proof.
  cbn zeta.
  destruct (first_turn_lists_everything Sample.upperCase Sample.flightsData Sample.hotelsData
              Sample.now (setInput (str "hello there") (initialState Sample.memory0))
              (str "hello there")) as (H & _);
    [reflexivity | discriminate | vm_compute; reflexivity | reflexivity | reflexivity |].
  unfold Sample.submit. rewrite H. vm_compute. reflexivity.
Defined.

(** X8. The hotels route returns the data rows, in data order, whose
    upper-cased city equals the upper-cased [city] parameter, when that is
    present and its upper-casing is not empty, and whose stars reach
    [minStars], when that is present and not zero. So two [city] parameters
    with the same upper-casing, such as two spellings that differ in letter
    case, get the same answer. This for whatever
    [String.prototype.toUpperCase] does to the text. *)
Theorem hotels_route (upperCase : jsstring -> jsstring) (data : list Hotel.t)
    (city : option jsstring) (minStars : option Z) :
  sublist (Api.hotels upperCase data city minStars) data
  ∧ (∀ h, In h (Api.hotels upperCase data city minStars)
          <-> In h data
              ∧ (∀ c, city = Some c -> upperCase c ≠ [] ->
                      upperCase (Hotel.city h) = upperCase c)
              ∧ (∀ n, minStars = Some n -> n ≠ 0%Z -> (n <= Hotel.stars h)%Z))
  ∧ (∀ c1 c2, upperCase c1 = upperCase c2 ->
              Api.hotels upperCase data (Some c1) minStars
              = Api.hotels upperCase data (Some c2) minStars).
Proof.
  split; [|split].
  - unfold Api.hotels. cbv zeta.
    etransitivity;
      [|apply (param_filter_sublist (fun h => upperCase (Hotel.city h))
                 (upperCase <$> city))].
    destruct (negb _); [apply sublist_List_filter|done].
  - intros h. unfold Api.hotels. cbv zeta.
    assert (Hstars : ∀ l,
      In h (if negb (default 0 minStars =? 0)%Z
            then List.filter (fun h => (default 0 minStars <=? Hotel.stars h)%Z) l
            else l)
      <-> In h l ∧ (∀ n, minStars = Some n -> n ≠ 0%Z -> (n <= Hotel.stars h)%Z)).
    { intros l. destruct minStars as [n|]; cbn [default from_option id].
      - destruct (Z.eqb_spec n 0) as [->|Hn]; cbn [negb].
        + split; [intros H; split; [done|]; by intros ? [= <-] | tauto].
        + rewrite List.filter_In, Z.leb_le. split.
          * intros [H1 H2]. split; [done|]. by intros ? [= <-] _.
          * intros [H1 H2]. split; [done|]. by apply H2.
      - cbn. split; [intros H; split; [done|]; by intros ? [=] | tauto]. }
    rewrite Hstars,
      (param_filter_In (fun h => upperCase (Hotel.city h)) (upperCase <$> city)).
    rewrite (upper_param upperCase city (fun y => upperCase (Hotel.city h) = y)).
    tauto.
  - intros c1 c2 H. unfold Api.hotels. cbn [fmap option_fmap option_map].
    by rewrite H.
Qed.

(** ** Selecting a held flight *)

Lemma find_first {A} (p : A -> bool) (l1 l2 : list A) (x : A) :
  (∀ y, In y l1 -> p y = false) -> p x = true ->
  List.find p (l1 ++ x :: l2) = Some x.
Proof.
  intros H1 Hx. induction l1 as [|y l1 IH]; cbn.
  - by rewrite Hx.
  - rewrite (H1 y) by (by left). apply IH. intros z Hz. apply H1. by right.
Qed.

(** X9. Selecting a flight of the held list (the first one with that id)
    records its id, replaces [lastQuery] by the flight's own origin,
    destination and date whatever was remembered, and says so in one agent
    message. If the flight is not overnight nothing else happens. If it is,
    [hotelRequired] becomes true, hotels are searched in the flight's
    destination for the current persona, and a second message follows. The
    flight list and the input stay as they are. *)
Theorem select_held_flight (upperCase : jsstring -> jsstring)
    (hotelsData : list Hotel.t) (now : nat -> N)
    (formatCurrency : Q -> jsstring) (id : jsstring) (st : State)
    (f : Flight.t) (earlier later : list Flight.t)
    (Hheld : flights st = earlier ++ f :: later)
    (Hid : Flight.id f = id)
    (Hfirst : ∀ g, In g earlier -> Flight.id g ≠ id) :
  let st' := selectFlight upperCase hotelsData now formatCurrency id st in
  let p := persona (memory st) in
  persona (memory st') = p
  ∧ chosenFlightId (memory st') = Some id
  ∧ lastQuery (memory st')
    = Some {| Query.from := Some (Flight.from f); Query.to := Some (Flight.to f);
              Query.date := Some (Flight.date f) |}
  ∧ flights st' = flights st ∧ input st' = input st
  ∧ (Flight.overnight f = false ->
       hotelRequired (memory st') = hotelRequired (memory st)
       ∧ hotels st' = hotels st ∧ requests st' = requests st
       ∧ transcript st' = transcript st ++ [(agent, selectedText formatCurrency f)])
  ∧ (Flight.overnight f = true ->
       hotelRequired (memory st') = Some true
       ∧ hotels st'
         = rankHotels (Api.hotels upperCase hotelsData (Some (Flight.to f)) (Some (minStars p)))
       ∧ requests st' = requests st ++ [GetHotels (Flight.to f) (minStars p)]
       ∧ transcript st'
         = transcript st ++ [(agent, selectedText formatCurrency f);
                             (agent, overnightText)]).
Proof.
  cbn zeta. unfold selectFlight.
  rewrite Hheld, (find_first _ earlier later f).
  - destruct (Flight.overnight f); repeat split; try done;
      try (by destruct (persona (memory st)));
      unfold transcript; cbn; rewrite ?List.map_app; cbn;
      by rewrite <- ?app_assoc.
  - intros g Hg. apply bool_decide_eq_false. by apply Hfirst.
  - by apply bool_decide_eq_true.
Qed.

Lemma select_held_flight_witness :
  let st := Sample.submit "from NYC" (initialState Sample.memory0) in
  let st' := selectFlight Sample.upperCase Sample.hotelsData Sample.now Sample.formatCurrency
               (str "F3") st in
  lastQuery (memory st')
  = Some {| Query.from := Some (str "NYC"); Query.to := Some (str "LHR");
            Query.date := Some (str "2025-11-12") |}
  ∧ List.map Hotel.id (hotels st') = [str "H4"].
Proof.
  cbn zeta.
  destruct (select_held_flight Sample.upperCase Sample.hotelsData Sample.now Sample.formatCurrency
              (str "F3") (Sample.submit "from NYC" (initialState Sample.memory0))
              (Sample.flight "F3" "NYC" "LHR" "2025-11-12" "First" 4000 true)
              [Sample.flight "F2" "NYC" "LAX" "2025-11-10" "Business" 900 false;
               Sample.flight "F1" "NYC" "LAX" "2025-11-10" "Economy" 300 false] [])
    as (_ & _ & Hq & _ & _ & _ & Hov).
  - vm_compute. reflexivity.
  - reflexivity.
  - intros g [<-|[<-|[]]]; vm_compute; discriminate.
  - split; [exact Hq|].
    destruct (Hov eq_refl) as (_ & Hh & _). rewrite Hh. vm_compute. reflexivity.
Defined.

(** ** Changing the persona *)

(** X10. Choosing a persona touches only [persona] and the transcript: the
    held flights are not re-ranked, no request is sent, the rest of Memory
    stays. The new persona takes effect at the next search: a following
    text turn that searches ranks its flights for the new persona, and a
    hotel search of that turn asks for the new persona's minimum stars. *)
Theorem persona_applies_to_next_search (upperCase : jsstring -> jsstring)
    (flightsData : list Flight.t)
    (hotelsData : list Hotel.t) (now : nat -> N) (p : Persona) (st : State)
    (q : jsstring) (Hq : trim (input st) = q) (Hne : q ≠ []) :
  let st1 := choosePersona now p st in
  let st2 := handleSubmit upperCase flightsData hotelsData now st1 in
  (memory st1 = with_persona p (memory st)
   ∧ flights st1 = flights st ∧ hotels st1 = hotels st
   ∧ requests st1 = requests st ∧ input st1 = input st
   ∧ length (messages st1) = S (length (messages st)))
  ∧ (searchesFlights q (flights st) = true ->
     flights st2
     = rankFlights p (Api.flights upperCase flightsData
                        (queryString (mergeQuery (memory st) (extract q)))))
  ∧ (∀ city, hotelCity st q = Some city ->
             hotels st2 = rankHotels (Api.hotels upperCase hotelsData (Some city)
                                        (Some (minStars p)))).
Proof.
  cbn zeta. split; [|split].
  - repeat split. unfold choosePersona, addAgent, addMessage. cbn.
    rewrite length_app. cbn. lia.
  - intros Hs.
    rewrite (handleSubmit_flights _ _ _ _ (choosePersona now p st) q Hq Hne).
    change (flights (choosePersona now p st)) with (flights st). by rewrite Hs.
  - intros city Hcity.
    rewrite (handleSubmit_hotels _ _ _ _ (choosePersona now p st) q Hq Hne).
    change (hotelCity (choosePersona now p st) q) with (hotelCity st q).
    by rewrite Hcity.
Qed.

Lemma persona_applies_to_next_search_witness :
  let st := setInput (str "from NYC to LAX") (initialState Sample.memory0) in
  let st2 := handleSubmit Sample.upperCase Sample.flightsData Sample.hotelsData Sample.now
               (choosePersona Sample.now Rich st) in
  flights st2
  = rankFlights Rich (Api.flights Sample.upperCase Sample.flightsData
       {| Query.from := Some (str "NYC"); Query.to := Some (str "LAX");
          Query.date := None |}).
Proof.
  cbn zeta.
  destruct (persona_applies_to_next_search Sample.upperCase Sample.flightsData Sample.hotelsData
              Sample.now Rich
              (setInput (str "from NYC to LAX") (initialState Sample.memory0))
              (str "from NYC to LAX")) as (_ & H & _);
    [reflexivity | discriminate |].
  rewrite H by (vm_compute; reflexivity). vm_compute. reflexivity.
Defined.

(** ** Scores and the top of the ranking *)

Lemma class_is_exclusive f w1 w2 :
  str w1 ≠ str w2 -> class_is f w1 = true -> class_is f w2 = false.
Proof.
  unfold class_is, jsstring_eqb. intros Hne H1%bool_decide_eq_true.
  apply bool_decide_eq_false. congruence.
Qed.

(** X11. A score lies between -1 and 3 for Rich and between 0 and 4 for
    Business, whatever the fare class text. *)
Theorem score_bounds (f : Flight.t) :
  (-1 <= personaScore Rich f <= 3)%Z ∧ (0 <= personaScore Business f <= 4)%Z.
Proof.
  unfold personaScore. split.
  - destruct (class_is f "first") eqn:E1.
    + rewrite (class_is_exclusive f "first" "business") by done.
      destruct (Flight.overnight f); lia.
    + destruct (class_is f "business"), (Flight.overnight f); lia.
  - destruct (class_is f "business") eqn:E1.
    + rewrite (class_is_exclusive f "business" "economy") by done.
      destruct (Flight.overnight f); cbn; lia.
    + destruct (class_is f "economy"), (Flight.overnight f); cbn; lia.
Qed.

(** X12. The top-ranked flight is one of the candidates and no candidate
    beats it: none has a higher score, and none with the same score is
    cheaper. There is a top-ranked flight unless there are no candidates. *)
Theorem top_ranked_is_best (p : Persona) (l : list Flight.t) :
  (∀ f, head (rankFlights p l) = Some f ->
        In f l ∧ ∀ g, In g l -> flight_before p f g)
  ∧ (head (rankFlights p l) = None <-> l = []).
Proof.
  unfold rankFlights.
  pose proof (sort_perm (cmpFlights p) l) as Hperm.
  pose proof (sort_strongly_sorted (cmpFlights p) (cmpFlights_antisym p)
                (cmpFlights_trans p) l) as Hsorted.
  destruct (sort (cmpFlights p) l) as [|f r]; cbn.
  - split; [done|]. split; [|done]. intros _.
    by apply Permutation_nil_r in Hperm.
  - split.
    + intros f' [= <-]. split.
      * apply (Permutation_in _ (Permutation_sym Hperm)). by left.
      * intros g Hg. apply (Permutation_in _ Hperm) in Hg.
        destruct Hg as [<-|Hg].
        -- right. split; [done|]. apply Qle_refl.
        -- apply StronglySorted_inv in Hsorted as [_ Hall].
           rewrite List.Forall_forall in Hall.
           by apply cmpFlights_before, Hall.
    + split; [done|]. intros ->. by apply Permutation_nil_l in Hperm.
Qed.

(** ** Refresh Flights *)

(** X13. With no remembered query the Refresh button does nothing. Right
    after a text turn that searched, it sends the same flight request again
    and leaves the flight list, Memory, the transcript and the hotels as
    they are. *)
Theorem refresh_repeats_search (upperCase : jsstring -> jsstring)
    (flightsData : list Flight.t)
    (hotelsData : list Hotel.t) (now : nat -> N) (st : State) (q : jsstring)
    (Hq : trim (input st) = q) (Hne : q ≠ [])
    (Hs : searchesFlights q (flights st) = true) :
  let st1 := handleSubmit upperCase flightsData hotelsData now st in
  let st2 := refreshFlights upperCase flightsData st1 in
  flights st2 = flights st1
  ∧ requests st2
    = requests st1 ++ [GetFlights (queryString (mergeQuery (memory st) (extract q)))]
  ∧ memory st2 = memory st1 ∧ messages st2 = messages st1
  ∧ hotels st2 = hotels st1
  ∧ (∀ s, lastQuery (memory s) = None -> refreshFlights upperCase flightsData s = s).
Proof.
  cbn zeta.
  assert (Hl : lastQuery (memory (handleSubmit upperCase flightsData hotelsData now st))
               = Some (mergeQuery (memory st) (extract q))).
  { rewrite handleSubmit_lastQuery by (by rewrite Hq). by rewrite Hq. }
  assert (Hp : persona (memory (handleSubmit upperCase flightsData hotelsData now st))
               = persona (memory st)).
  { rewrite (handleSubmit_memory _ _ _ _ st q Hq Hne). by destruct (hotelCity _ _). }
  unfold refreshFlights. rewrite Hl, Hp.
  split; [|split; [done|split; [done|split; [done|split; [done|]]]]].
  - rewrite searchFlights_flights, (handleSubmit_flights _ _ _ _ st q Hq Hne).
    by rewrite Hs.
  - intros s Hnone. by rewrite Hnone.
Qed.

Lemma refresh_repeats_search_witness :
  let st1 := Sample.submit "flights from NYC" (initialState Sample.memory0) in
  flights (refreshFlights Sample.upperCase Sample.flightsData st1) = flights st1.
Proof.
  cbn zeta.
  destruct (refresh_repeats_search Sample.upperCase Sample.flightsData Sample.hotelsData Sample.now
              (setInput (str "flights from NYC") (initialState Sample.memory0))
              (str "flights from NYC")) as (H & _);
    [reflexivity | discriminate | vm_compute; reflexivity |].
  exact H.
Defined.

(** ** Sessions *)

Section Sessions.
Variable upperCase : jsstring -> jsstring.
Variable flightsData : list Flight.t.
Variable hotelsData : list Hotel.t.
Variable now : nat -> N.
Variable formatCurrency : Q -> jsstring.

Lemma session_snoc evs ev st :
  session upperCase flightsData hotelsData now formatCurrency (evs ++ [ev]) st
  = handle upperCase flightsData hotelsData now formatCurrency ev
      (session upperCase flightsData hotelsData now formatCurrency evs st).
Proof. unfold session. by rewrite fold_left_app. Qed.

(** A property that every event keeps holds throughout a session. *)
Lemma session_invariant (I : State -> Prop) evs st :
  (∀ ev s, I s -> I (handle upperCase flightsData hotelsData now formatCurrency ev s)) ->
  I st -> I (session upperCase flightsData hotelsData now formatCurrency evs st).
Proof.
  intros Hstep. revert st. induction evs as [|ev evs IH]; intros st H; [done|].
  cbn. apply IH. by apply Hstep.
Qed.

(** A text turn either returns its state or is described by the field
    lemmas. *)
Lemma handleSubmit_cases (P : State -> Prop) st :
  (trim (input st) = [] -> P st) ->
  (∀ q, trim (input st) = q -> q ≠ [] ->
        P (handleSubmit upperCase flightsData hotelsData now st)) ->
  P (handleSubmit upperCase flightsData hotelsData now st).
Proof.
  intros H1 H2. destruct (trim (input st)) as [|c q] eqn:E.
  - rewrite handleSubmit_empty by done. by apply H1.
  - by apply (H2 (c :: q)).
Qed.

Lemma In_sort {A} (cmp : A -> A -> Q) l x : In x (sort cmp l) <-> In x l.
Proof.
  split; apply Permutation_in; [symmetry|]; apply sort_perm.
Qed.

Lemma Api_flights_In data q f : In f (Api.flights upperCase data q) -> In f data.
Proof.
  unfold Api.flights. cbv zeta.
  intros [H _]%param_filter_In. apply param_filter_In in H as [H _].
  by apply param_filter_In in H as [H _].
Qed.

Lemma Api_hotels_In data city n h :
  n ≠ 0%Z -> In h (Api.hotels upperCase data city (Some n)) ->
  In h data ∧ (n <= Hotel.stars h)%Z.
Proof.
  intros Hn Hh. split; [|by eapply Api_hotels_stars].
  revert Hh. unfold Api.hotels. cbn [default from_option id].
  destruct (n =? 0)%Z eqn:E; [apply Z.eqb_eq in E; done|]. cbn [negb].
  intros [H _]%List.filter_In.
  by apply (param_filter_In (fun h => upperCase (Hotel.city h))) in H as [H _].
Qed.

Lemma ranked_flights_from_data p q f :
  In f (rankFlights p (Api.flights upperCase flightsData q)) -> In f flightsData.
Proof. unfold rankFlights. rewrite In_sort. apply Api_flights_In. Qed.

Lemma ranked_hotels_from_data p city h :
  In h (rankHotels (Api.hotels upperCase hotelsData (Some city) (Some (minStars p)))) ->
  In h hotelsData ∧ (4 <= Hotel.stars h)%Z.
Proof.
  unfold rankHotels. rewrite In_sort.
  intros [H1 H2]%Api_hotels_In; [|by destruct p].
  split; [done|]. destruct p; cbn in H2; lia.
Qed.

Lemma selectFlight_cases (P : State -> Prop) id st :
  ((∀ f, In f (flights st) -> Flight.id f ≠ id) -> P st) ->
  (∀ f earlier later,
     flights st = earlier ++ f :: later -> Flight.id f = id ->
     (∀ g, In g earlier -> Flight.id g ≠ id) ->
     P (selectFlight upperCase hotelsData now formatCurrency id st)) ->
  P (selectFlight upperCase hotelsData now formatCurrency id st).
Proof.
  intros H1 H2.
  destruct (List.find (fun x => jsstring_eqb (Flight.id x) id) (flights st))
    as [f|] eqn:E.
  - assert (Hsplit : ∃ earlier later,
              flights st = earlier ++ f :: later ∧ Flight.id f = id
              ∧ ∀ g, In g earlier -> Flight.id g ≠ id).
    { clear H1 H2. induction (flights st) as [|x l IH]; [done|].
      cbn in E. destruct (jsstring_eqb (Flight.id x) id) eqn:Ex.
      - injection E as ->. exists [], l. split; [done|].
        split; [by apply bool_decide_eq_true in Ex|]. by intros g [].
      - destruct (IH E) as (earlier & later & -> & Hid & Hfirst).
        exists (x :: earlier), later. split; [done|]. split; [done|].
        intros g [<-|Hg]; [by apply bool_decide_eq_false in Ex|by apply Hfirst]. }
    destruct Hsplit as (earlier & later & Hl & Hid & Hfirst).
    by apply (H2 f earlier later).
  - unfold selectFlight. rewrite E. apply H1.
    intros f Hf Hid. apply (List.find_none _ _ E) in Hf.
    apply bool_decide_eq_false in Hf. done.
Qed.
End Sessions.

Section SessionProperties.
Variable upperCase : jsstring -> jsstring.
Variable flightsData : list Flight.t.
Variable hotelsData : list Hotel.t.
Variable now : nat -> N.
Variable formatCurrency : Q -> jsstring.

(** Unfolds the handler of an event into its branches. *)
Ltac branches ev st :=
  destruct ev as [v| |p|id|];
  cbn [handle];
  [ | unfold handleSubmit;
      destruct (trim (input st)) as [|? ?]; [|cbv beta iota zeta;
        destruct (searchesFlights _ _); destruct (needsHotel _ _);
        try destruct (arrivalCity _ _)]
    | unfold choosePersona
    | unfold selectFlight;
      destruct (List.find _ (flights st)) as [f|];
      [destruct (Flight.overnight f)|]
    | unfold refreshFlights; destruct (lastQuery (memory st)) ].

Lemma handle_held ev st :
  held_from_data flightsData hotelsData st ->
  held_from_data flightsData hotelsData
    (handle upperCase flightsData hotelsData now formatCurrency ev st).
Proof.
  intros [Hf Hh]. unfold held_from_data.
  branches ev st; cbn [flights hotels setInput setMemory setFlights setHotels
                       fetch addAgent addUser addMessage searchFlights searchHotels];
    (split; [try exact Hf | try exact Hh]);
    try (intros f'; apply ranked_flights_from_data);
    try (intros h'; apply ranked_hotels_from_data).
Qed.

(** X14. At every point of a session, whatever the user did, every flight
    listed is a row of the flights data and every hotel listed is a row of
    the hotels data with at least four stars. *)
Theorem session_lists_from_data (evs : list Event) (m : Memory) :
  held_from_data flightsData hotelsData
    (session upperCase flightsData hotelsData now formatCurrency evs (initialState m)).
Proof.
  apply session_invariant; [apply handle_held|].
  split; [by intros f []|by intros h []].
Qed.

Lemma handle_hotelRequired ev st :
  hotelRequired (memory st) = Some true ->
  hotelRequired (memory (handle upperCase flightsData hotelsData now formatCurrency ev st))
  = Some true.
Proof. intros H. branches ev st; try exact H; reflexivity. Qed.

(** X15. [hotelRequired] is never cleared: once it is true it stays true
    through every later event of the session. *)
Theorem hotelRequired_never_cleared (evs : list Event) (st : State)
    (Hset : hotelRequired (memory st) = Some true) :
  hotelRequired
    (memory (session upperCase flightsData hotelsData now formatCurrency evs st))
  = Some true.
Proof.
  by apply (session_invariant upperCase flightsData hotelsData now formatCurrency
              (fun s => hotelRequired (memory s) = Some true));
    [intros ev s; apply handle_hotelRequired|].
Qed.

Lemma in_play_fetch_flights st q s' :
  hotels s' = hotels st -> requests s' = requests st ++ [GetFlights q] ->
  hotels_in_play s' -> hotels_in_play st.
Proof.
  intros Hh Hr [H|(c & n & H)]; [left; by rewrite <- Hh|].
  right. exists c, n. rewrite Hr in H.
  apply in_app_or in H as [H|[H|[]]]; [done|discriminate].
Qed.

Lemma handle_in_play ev st :
  (hotels_in_play st -> hotelRequired (memory st) = Some true) ->
  hotels_in_play (handle upperCase flightsData hotelsData now formatCurrency ev st) ->
  hotelRequired (memory (handle upperCase flightsData hotelsData now formatCurrency ev st))
  = Some true.
Proof.
  intros I.
  branches ev st; try reflexivity; try exact I; intros H; apply I;
    try exact H;
    try (eapply in_play_fetch_flights; [| |exact H]; reflexivity).
Qed.

(** X16. In a session that starts with no hotels listed, whenever a hotel
    search has been sent or hotels are listed, [hotelRequired] is true: the
    Required badge always accompanies the hotel list. *)
Theorem hotels_imply_required (evs : list Event) (m : Memory) :
  let st := session upperCase flightsData hotelsData now formatCurrency evs (initialState m) in
  hotels_in_play st -> hotelRequired (memory st) = Some true.
Proof.
  cbn zeta.
  apply (session_invariant upperCase flightsData hotelsData now formatCurrency
           (fun s => hotels_in_play s -> hotelRequired (memory s) = Some true)).
  - intros ev s. apply handle_in_play.
  - intros [H|(c & n & [])]. by destruct H.
Qed.

Lemma handle_append_only ev st :
  messages st `prefix_of` messages (handle upperCase flightsData hotelsData now formatCurrency ev st)
  ∧ requests st `prefix_of` requests (handle upperCase flightsData hotelsData now formatCurrency ev st).
Proof.
  branches ev st;
    cbn [messages requests setInput setMemory setFlights setHotels
         fetch addAgent addUser addMessage searchFlights searchHotels];
    rewrite <- ?app_assoc; split;
    try reflexivity; by apply prefix_app_r.
Qed.

(** X17. The transcript and the list of requests sent only grow: what a
    session adds comes after what was there, and nothing already there is
    changed or removed. *)
Theorem session_append_only (evs : list Event) (st : State) :
  let st' := session upperCase flightsData hotelsData now formatCurrency evs st in
  messages st `prefix_of` messages st' ∧ requests st `prefix_of` requests st'.
Proof.
  cbn zeta.
  apply (session_invariant upperCase flightsData hotelsData now formatCurrency
           (fun s => messages st `prefix_of` messages s
                     ∧ requests st `prefix_of` requests s)); [|done].
  intros ev s [H1 H2]. destruct (handle_append_only ev s) as [H3 H4].
  split; by etransitivity.
Qed.

Lemma handle_chosen ev st :
  held_from_data flightsData hotelsData st ->
  chosen_from_data flightsData st ->
  chosen_from_data flightsData (handle upperCase flightsData hotelsData now formatCurrency ev st).
Proof.
  intros [Hheld _] Hc. destruct ev as [v| |p|id|]; cbn [handle].
  - exact Hc.
  - apply handleSubmit_cases; [done|]. intros q Hq Hne id.
    rewrite (handleSubmit_memory _ _ _ _ st q Hq Hne).
    destruct (hotelCity st q); apply Hc.
  - exact Hc.
  - apply selectFlight_cases; [done|].
    intros f earlier later Hl Hid Hfirst id'.
    unfold selectFlight.
    rewrite Hl, (find_first _ earlier later f);
      [|intros g Hg; apply bool_decide_eq_false; by apply Hfirst
       |by apply bool_decide_eq_true].
    assert (Hf : In f flightsData).
    { apply Hheld. rewrite Hl. apply in_or_app. right. by left. }
    destruct (Flight.overnight f); cbn; intros [= <-]; by exists f.
  - unfold refreshFlights. by destruct (lastQuery (memory st)).
Qed.

(** X18. In a session that starts with no flight chosen, the chosen flight
    id is always the id of a row of the flights data. *)
Theorem chosen_flight_exists (evs : list Event) (m : Memory)
    (Hnone : chosenFlightId m = None) :
  chosen_from_data flightsData
    (session upperCase flightsData hotelsData now formatCurrency evs (initialState m)).
Proof.
  apply (session_invariant upperCase flightsData hotelsData now formatCurrency
           (fun s => held_from_data flightsData hotelsData s
                     ∧ chosen_from_data flightsData s)).
  - intros ev s [H1 H2]. split; [by apply handle_held|by apply handle_chosen].
  - split.
    + split; [by intros f []|by intros h []].
    + intros id. cbn. by rewrite Hnone.
Qed.

Lemma handle_persona ev st :
  persona (memory (handle upperCase flightsData hotelsData now formatCurrency ev st))
  = match ev with PersonaChosen p => p | _ => persona (memory st) end.
Proof. branches ev st; reflexivity. Qed.

(** X19. The persona changes only through the persona select: after any
    sequence of events it is the one chosen last, or the initial one if
    none was chosen; text turns, selections and refreshes never alter
    it. *)
Theorem persona_is_last_chosen (evs : list Event) (st : State) :
  persona (memory (session upperCase flightsData hotelsData now formatCurrency evs st))
  = lastPersona evs (persona (memory st)).
Proof.
  revert st. induction evs as [|ev evs IH]; intros st; [done|].
  change (persona (memory (session upperCase flightsData hotelsData now formatCurrency evs
                             (handle upperCase flightsData hotelsData now formatCurrency ev st)))
          = lastPersona evs (match ev with
                             | PersonaChosen p' => p'
                             | _ => persona (memory st)
                             end)).
  by rewrite IH, handle_persona.
Qed.

End SessionProperties.

Lemma hotelRequired_never_cleared_witness :
  let st := selectFlight Sample.upperCase Sample.hotelsData Sample.now Sample.formatCurrency (str "F3")
              (Sample.submit "from NYC" (initialState Sample.memory0)) in
  hotelRequired
    (memory (session Sample.upperCase Sample.flightsData Sample.hotelsData Sample.now
               Sample.formatCurrency
               [Typed (str "to LAX on 2025-11-10"); Submitted; PersonaChosen Rich;
                FlightSelected (str "F1"); RefreshClicked] st))
  = Some true.
Proof.
  apply hotelRequired_never_cleared. vm_compute. reflexivity.
Defined.

Lemma chosen_flight_exists_witness :
  chosen_from_data Sample.flightsData
    (session Sample.upperCase Sample.flightsData Sample.hotelsData Sample.now Sample.formatCurrency
       [Typed (str "from NYC"); Submitted; FlightSelected (str "F2");
        FlightSelected (str "F9")]
       (initialState Sample.memory0)).
Proof. apply chosen_flight_exists. reflexivity. Defined.

(** ** Saving and loading Memory *)

Lemma readMemory_memoryJSON m :
  readMemory (spread (memoryJSON m) ∪ defaultMemory) = m.
Proof.
  destruct m as [[] [[[?|] [?|] [?|]]|] [?|] [[]|]]; vm_compute; reflexivity.
Qed.

(** X21. What [saveMemory] stores, [loadMemory] reads back: provided
    [JSON.parse] inverts [JSON.stringify] on the stored value and the text
    is not empty, the loaded object denotes the Memory that was saved, with
    absent fields still absent and a saved Rich persona not overridden by
    the default. Without a window nothing is stored. *)
Theorem save_load_round_trip (JSON_stringify : JValue -> jsstring)
    (JSON_parse : jsstring -> option JValue) (m : Memory)
    (stored : option jsstring)
    (Hparse : JSON_parse (JSON_stringify (memoryJSON m)) = Some (memoryJSON m))
    (Htext : JSON_stringify (memoryJSON m) ≠ []) :
  readMemory
    (loadMemory JSON_parse (Some (Returns (saveMemory JSON_stringify true m stored))))
  = m
  ∧ saveMemory JSON_stringify false m stored = stored.
Proof.
  split; [|done]. unfold saveMemory, loadMemory.
  destruct (JSON_stringify (memoryJSON m)) as [|c text] eqn:E; [done|].
  cbn [truthy default from_option id]. rewrite Hparse.
  apply readMemory_memoryJSON.
Qed.

Lemma save_load_round_trip_witness :
  let m := {| persona := Rich;
              lastQuery := Some {| Query.from := Some (str "NYC"); Query.to := None;
                                   Query.date := Some (str "2025-11-10") |};
              chosenFlightId := None; hotelRequired := Some true |} in
  readMemory
    (loadMemory (fun _ => Some (memoryJSON m))
       (Some (Returns (saveMemory (fun _ => str "{...}") true m None))))
  = m.
Proof.
  cbn zeta.
  apply (save_load_round_trip (fun _ => str "{...}")); [reflexivity|discriminate].
Defined.

(** ** What a search lists *)

Lemma sent_filter (o : option jsstring) (P : jsstring -> Prop) :
  (∀ x, sent o = Some x -> P x) <-> (∀ x, o = Some x -> x ≠ [] -> P x).
Proof.
  unfold sent. destruct o as [[|c x]|]; cbn [truthy].
  - split; [by intros _ y [= <-] | by intros _ y [=]].
  - split; [intros H y [= <-] _; by apply H | intros H y [= <-]; by apply H].
  - split; by intros _ y [=].
Qed.

Lemma airport_code_upper c : airport_code c -> toUpperCase c = c ∧ c ≠ [].
Proof.
  intros [Hlen Hup]. split; [|by destruct c].
  unfold toUpperCase. clear Hlen.
  induction Hup as [|x c Hx _ IH]; cbn; [done|]. rewrite IH. f_equal.
  unfold Char.upper, Char.is_lower. unfold Char.is_upper in Hx.
  apply andb_true_iff in Hx as [H1%N.leb_le H2%N.leb_le].
  destruct (N.leb_spec 97 x); [lia|done].
Qed.

(** X22. After a text turn that searches, every flight listed is a row of
    the data that matches the merged query: its origin and destination are
    the upper-cased ones of the query, its date the query's, for each field
    the route filters on. Where upper-casing leaves three-letter codes
    [A]-[Z] alone, as [String.prototype.toUpperCase] does, the listed
    flights have exactly the origin and destination that the utterance
    itself named; and they always have the date it named. *)
Theorem listed_flights_match_request (upperCase : jsstring -> jsstring)
    (flightsData : list Flight.t)
    (hotelsData : list Hotel.t) (now : nat -> N) (st : State) (q : jsstring)
    (Hq : trim (input st) = q) (Hne : q ≠ [])
    (Hs : searchesFlights q (flights st) = true) (f : Flight.t)
    (Hf : In f (flights (handleSubmit upperCase flightsData hotelsData now st))) :
  let merged := mergeQuery (memory st) (extract q) in
  let codes_kept := ∀ c, airport_code c -> upperCase c = c in
  In f flightsData
  ∧ (∀ x, Query.from merged = Some x -> x ≠ [] -> upperCase x ≠ [] ->
          Flight.from f = upperCase x)
  ∧ (∀ x, Query.to merged = Some x -> x ≠ [] -> upperCase x ≠ [] ->
          Flight.to f = upperCase x)
  ∧ (∀ x, Query.date merged = Some x -> x ≠ [] -> Flight.date f = x)
  ∧ (codes_kept -> ∀ c, extract_from q = Some c -> Flight.from f = c)
  ∧ (codes_kept -> ∀ c, extract_to q = Some c -> Flight.to f = c)
  ∧ (∀ d, extract_date q = Some d -> Flight.date f = d).
Proof.
  cbn zeta. rewrite (handleSubmit_flights _ _ _ _ st q Hq Hne), Hs in Hf.
  unfold rankFlights in Hf. apply In_sort, Api_flights_iff in Hf.
  destruct Hf as (Hd & Hfrom & Hto & Hdate).
  cbn [queryString Query.from Query.to Query.date] in Hfrom, Hto, Hdate.
  rewrite (sent_filter _ (fun x => upperCase x ≠ [] -> Flight.from f = upperCase x))
    in Hfrom.
  rewrite (sent_filter _ (fun x => upperCase x ≠ [] -> Flight.to f = upperCase x))
    in Hto.
  rewrite (sent_filter _ (fun x => x ≠ [] -> Flight.date f = x)) in Hdate.
  split; [done|]. split; [done|]. split; [done|].
  split; [intros x Hx Hn; by apply Hdate|].
  split; [|split].
  - intros Hup c Hc. pose proof (extract_from_code q c Hc) as Hcode.
    destruct (airport_code_upper c Hcode) as [_ Hn].
    rewrite <- (Hup c Hcode). apply Hfrom; [cbn; by rewrite Hc|done|].
    by rewrite (Hup c Hcode).
  - intros Hup c Hc. pose proof (extract_to_code q c Hc) as Hcode.
    destruct (airport_code_upper c Hcode) as [_ Hn].
    rewrite <- (Hup c Hcode). apply Hto; [cbn; by rewrite Hc|done|].
    by rewrite (Hup c Hcode).
  - intros d Hd'.
    assert (Hn : d ≠ []).
    { destruct (extract_date_shape q d Hd')
        as [(? & ? & ? & ? & ? & ? & ? & ? & -> & _) _]. discriminate. }
    apply Hdate; [cbn; by rewrite Hd'|done|done].
Qed.

Lemma listed_flights_match_request_witness :
  List.Forall (fun f => Flight.to f = str "LAX")
    (flights (Sample.submit "flights to lax" (initialState Sample.memory0))).
Proof.
  apply List.Forall_forall. intros f Hf.
  destruct (listed_flights_match_request Sample.upperCase Sample.flightsData
              Sample.hotelsData Sample.now
              (setInput (str "flights to lax") (initialState Sample.memory0))
              (str "flights to lax") eq_refl ltac:(discriminate) eq_refl f Hf)
    as (_ & _ & _ & _ & _ & H & _).
  apply H; [|vm_compute; reflexivity].
  intros c Hc. by apply airport_code_upper.
Defined.

Lemma level_hotel_tied a x :
  level cmpHotels a x = true
  <-> Hotel.stars a = Hotel.stars x ∧ (Hotel.price a == Hotel.price x)%Q.
Proof.
  unfold level. rewrite andb_true_iff, !Qle_bool_iff.
  change (before cmpHotels a x ∧ before cmpHotels x a
          <-> Hotel.stars a = Hotel.stars x ∧ (Hotel.price a == Hotel.price x)%Q).
  rewrite !cmpHotels_before. unfold hotel_before.
  split.
  - intros [[?|[? ?]] [?|[? ?]]]; try lia. split; [done|lra].
  - intros [? ?]. split; right; (split; [lia|lra]).
Qed.

(** X23. The hotel ranking of [searchHotels] keeps every hotel the route
    returned, each as often as it came, keeps the route's order among
    hotels with the same stars and price, and returns an already ranked
    list unchanged. *)
Theorem hotel_ranking_stable (l : list Hotel.t) :
  Permutation l (rankHotels l)
  ∧ (∀ a, List.filter (level cmpHotels a) (rankHotels l)
          = List.filter (level cmpHotels a) l)
  ∧ (∀ a x, level cmpHotels a x = true
            <-> Hotel.stars a = Hotel.stars x ∧ (Hotel.price a == Hotel.price x)%Q)
  ∧ rankHotels (rankHotels l) = rankHotels l.
Proof.
  unfold rankHotels. split; [apply sort_perm|]. split; [|split].
  - intros a. apply sort_stable, cmpHotels_trans.
  - apply level_hotel_tied.
  - apply sort_idempotent; [apply cmpHotels_antisym | apply cmpHotels_trans].
Qed.

Lemma hotels_imply_required_witness :
  hotelRequired
    (memory (session Sample.upperCase Sample.flightsData Sample.hotelsData Sample.now
               Sample.formatCurrency
               [Typed (str "a night in to LAX"); Submitted; PersonaChosen Rich]
               (initialState Sample.memory0)))
  = Some true.
Proof.
  apply (hotels_imply_required Sample.upperCase Sample.flightsData Sample.hotelsData Sample.now
           Sample.formatCurrency
           [Typed (str "a night in to LAX"); Submitted; PersonaChosen Rich]
           Sample.memory0).
  left. vm_compute. discriminate.
Defined.
